(** * arena.h: a bump-pointer arena allocator

    A shallow embedding of [src/arena.h] (both build configurations: the
    default dynamic one and [ARENA_NOALLOC]) and the properties of its
    operations.

    Conventions of the embedding.
    - [int] and [unsigned long] values are mathematical integers ([Z]); the
      widths of the two types are parameters ([Platform]).  Every place where
      C converts to [unsigned long] or where [unsigned long] arithmetic can
      wrap is written out with [to_ulong].
    - An address is a [Z].  A pointer that may be [NULL] is an [option]:
      [None] is [NULL].  Pointer arithmetic [arena->data + n] is the exact sum;
      the cast [(unsigned long)p] truncates with [to_ulong].  The value such
      a sum has as a pointer of a given width is [c_pointer]: a sum that
      leaves the address space wraps there, and can be the null pointer.
    - A C string ([const char *]) that may be [NULL] is an [option string].
    - A function taking [arena_t *arena] receives [None] for [NULL] and
      [Some a] for a pointer to a struct whose fields currently hold [a]; it
      returns the new value of the file-scope variable [_arena_error_global],
      the new contents of [*arena], and its C return value.
    - [ARENA_LOCK()] and [ARENA_UNLOCK()] expand to nothing by default and are
      not modelled. *)

From Stdlib Require Import ZArith Lia String List Bool.
Import ListNotations.
Local Open Scope Z_scope.

(** ** Integer types of the platform *)

(** Widths in bits of [int] and [unsigned long]. *)
Class Platform := { INT_BITS : Z; ULONG_BITS : Z }.

(** What C guarantees of the two widths. *)
Definition platform_ok {P : Platform} : Prop :=
  16 <= INT_BITS /\ INT_BITS <= ULONG_BITS /\ 32 <= ULONG_BITS.

Definition INT_MAX {P : Platform} : Z := 2 ^ (INT_BITS - 1) - 1.
Definition INT_MIN {P : Platform} : Z := - 2 ^ (INT_BITS - 1).
Definition ULONG_MAX {P : Platform} : Z := 2 ^ ULONG_BITS - 1.

(** A value an [int] parameter can hold. *)
Definition is_int {P : Platform} (z : Z) : Prop := INT_MIN <= z <= INT_MAX.

(** Conversion to [unsigned long], and the result of [unsigned long]
    arithmetic: reduction modulo [2 ^ ULONG_BITS]. *)
Definition to_ulong {P : Platform} (z : Z) : Z := z mod 2 ^ ULONG_BITS.

(** Common data models.  [LLP64] has the two widths of [ILP32]; its pointers
    have 64 bits, so that storage of 4 GiB and addresses above [2 ^ 32]
    exist there. *)
Definition LP64 : Platform := {| INT_BITS := 32; ULONG_BITS := 64 |}.
Definition ILP32 : Platform := {| INT_BITS := 32; ULONG_BITS := 32 |}.
Definition LLP64 : Platform := {| INT_BITS := 32; ULONG_BITS := 32 |}.

(** ** Arena structure *)

Definition ptr : Type := option Z.
Definition NULL {A : Type} : option A := None.

Record arena_t := mk_arena {
  data : Z;                (* unsigned char *data: address of the arena memory *)
  capacity : Z;            (* unsigned long capacity *)
  pos : Z;                 (* unsigned long pos *)
  error : option string    (* const char *error *)
}.

(** [arena->error = msg;] *)
Definition set_error (a : arena_t) (msg : string) : arena_t :=
  {| data := data a; capacity := capacity a; pos := pos a; error := Some msg |}.

(** The initial value of [static const char *_arena_error_global]. *)
Definition _arena_error_global_init : option string := Some "no error"%string.

Section Operations.
Context {P : Platform}.

(** [arena_error] *)
Definition arena_error (g : option string) (arena : option arena_t)
  : option string :=
  match arena with
  | Some a =>
      match error a with
      | Some e => Some e
      | None => Some "no error"%string
      end
  | None => g
  end.

(** [arena_alloc] *)
Definition arena_alloc (g : option string) (arena : option arena_t) (size : Z)
  : option string * option arena_t * ptr :=
  match arena with
  | None => (Some "null arena"%string, None, NULL)
  | Some a =>
      if size <=? 0 then
        (g, Some (set_error a "invalid allocation size"%string), NULL)
      else if to_ulong (pos a + to_ulong size) >? capacity a then
        (g, Some (set_error a "arena overflow"%string), NULL)
      else
        (g,
         Some {| data := data a;
                 capacity := capacity a;
                 pos := to_ulong (pos a + to_ulong size);
                 error := Some "no error"%string |},
         Some (data a + pos a))
  end.

(** [arena_alloc_aligned] *)
Definition arena_alloc_aligned
  (g : option string) (arena : option arena_t) (size alignment : Z)
  : option string * option arena_t * ptr :=
  match arena with
  | None => (Some "null arena"%string, None, NULL)
  | Some a =>
      if size <=? 0 then
        (g, Some (set_error a "invalid allocation size"%string), NULL)
      else if (alignment <=? 0)
              || negb (Z.land alignment (alignment - 1) =? 0) then
        (g, Some (set_error a "alignment must be power of two"%string), NULL)
      else
        let current_addr := to_ulong (data a + pos a) in
        let offset :=
          to_ulong (to_ulong alignment - current_addr mod to_ulong alignment)
          mod to_ulong alignment in
        let new_pos := to_ulong (pos a + offset) in
        if to_ulong (new_pos + to_ulong size) >? capacity a then
          (g, Some (set_error a "arena overflow (aligned)"%string), NULL)
        else
          (g,
           Some {| data := data a;
                   capacity := capacity a;
                   pos := to_ulong (new_pos + to_ulong size);
                   error := Some "no error"%string |},
           Some (data a + new_pos))
  end.

(** [arena_reset] *)
Definition arena_reset (g : option string) (arena : option arena_t)
  : option string * option arena_t :=
  match arena with
  | None => (g, None)
  | Some a =>
      (g,
       Some {| data := data a; capacity := capacity a;
               pos := 0; error := Some "no error"%string |})
  end.

(** [arena_used] *)
Definition arena_used (arena : option arena_t) : Z :=
  match arena with
  | None => 0
  | Some a => pos a
  end.

(** [arena_capacity] *)
Definition arena_capacity (arena : option arena_t) : Z :=
  match arena with
  | None => 0
  | Some a => capacity a
  end.

End Operations.

(** ** Dynamic configuration (default): [arena_init(int size)], [arena_destroy] *)

(** The allocation hooks.  [ARENA_MALLOC n] is what [ARENA_MALLOC(n)] (by
    default the external [_arena_alloc(unsigned long)]) returns for a request
    of [n] bytes: [None] for [NULL], [Some d] for storage at address [d].
    [SIZEOF_ARENA_T] is [sizeof(arena_t)]. *)
Class Allocator := { ARENA_MALLOC : Z -> ptr; SIZEOF_ARENA_T : Z }.

(** The argument passed for [arena_t *arena] by a client: [NULL], or the arena
    the client holds. *)
Variant arena_arg := Arg_null | Arg_arena.

Module Dynamic.
Section WithAllocator.
Context {P : Platform} {A : Allocator}.

(** [arena_init(int size)] *)
Definition arena_init (g : option string) (size : Z)
  : option string * option arena_t :=
  match ARENA_MALLOC SIZEOF_ARENA_T with
  | None => (Some "out of memory (arena struct)"%string, NULL)
  | Some _ =>
      match ARENA_MALLOC (to_ulong size) with
      | None => (Some "out of memory (arena data)"%string, NULL)
      | Some d =>
          (g,
           Some {| data := d; capacity := to_ulong size;
                   pos := 0; error := Some "no error"%string |})
      end
  end.

(** [arena_destroy]: the struct and its storage are freed, so no contents
    of [*arena] remain. *)
Definition arena_destroy (g : option string) (arena : option arena_t)
  : option string * option arena_t :=
  match arena with
  | None => (g, None)
  | Some _ => (Some "no error"%string, None)
  end.

(** A client program's view: the global error slot and the arena its handle
    [arena_t *a] points to ([None] when [a] is [NULL]: before construction,
    after a failed [arena_init], after [arena_destroy]). *)
Record world := mk_world {
  _arena_error_global : option string;
  client_arena : option arena_t
}.

Definition world_init : world :=
  {| _arena_error_global := _arena_error_global_init; client_arena := NULL |}.

Definition deref (w : world) (p : arena_arg) : option arena_t :=
  match p with
  | Arg_null => None
  | Arg_arena => client_arena w
  end.

(** Writes back what a call left in the global slot and in [*arena]. *)
Definition store (w : world) (p : arena_arg)
  (g' : option string) (a' : option arena_t) : world :=
  {| _arena_error_global := g';
     client_arena := match p with
                     | Arg_null => client_arena w
                     | Arg_arena => a'
                     end |}.

Inductive call :=
| Call_init (size : Z)                       (* a = arena_init(size) *)
| Call_alloc (p : arena_arg) (size : Z)
| Call_alloc_aligned (p : arena_arg) (size alignment : Z)
| Call_reset (p : arena_arg)
| Call_destroy (p : arena_arg)               (* arena_destroy(p); a = NULL *)
| Call_error (p : arena_arg).

Definition step (w : world) (c : call) : world :=
  match c with
  | Call_init size =>
      let '(g', a') := arena_init (_arena_error_global w) size in
      {| _arena_error_global := g'; client_arena := a' |}
  | Call_alloc p size =>
      let '(g', a', _) := arena_alloc (_arena_error_global w) (deref w p) size in
      store w p g' a'
  | Call_alloc_aligned p size alignment =>
      let '(g', a', _) :=
        arena_alloc_aligned (_arena_error_global w) (deref w p) size alignment in
      store w p g' a'
  | Call_reset p =>
      let '(g', a') := arena_reset (_arena_error_global w) (deref w p) in
      store w p g' a'
  | Call_destroy p =>
      let '(g', a') := arena_destroy (_arena_error_global w) (deref w p) in
      store w p g' a'
  | Call_error _ => w
  end.

Definition run (w : world) (cs : list call) : world := fold_left step cs w.

End WithAllocator.
End Dynamic.

(** ** Static configuration ([ARENA_NOALLOC]): [arena_init(void)] *)

(** [ARENA_SIZE] and the address of [_arena_static_data]. *)
Class StaticConfig := { ARENA_SIZE : Z; _arena_static_data : Z }.

Module NoAlloc.
Section WithStaticConfig.
Context {P : Platform} {C : StaticConfig}.

(** The file-scope variables. *)
Record world := mk_world {
  _arena_error_global : option string;
  _arena_static : arena_t;
  _arena_static_used : Z
}.

(** Their initializers. *)
Definition world_init : world :=
  {| _arena_error_global := _arena_error_global_init;
     _arena_static := {| data := _arena_static_data;
                         capacity := to_ulong ARENA_SIZE;
                         pos := 0;
                         error := NULL |};
     _arena_static_used := 0 |}.

(** [arena_init(void)]; the result is [NULL] or [&_arena_static]. *)
Definition arena_init (w : world) : world * arena_arg :=
  if negb (_arena_static_used w =? 0) then
    ({| _arena_error_global := _arena_error_global w;
        _arena_static :=
          set_error (_arena_static w) "static arena already used"%string;
        _arena_static_used := _arena_static_used w |},
     Arg_null)
  else
    ({| _arena_error_global := _arena_error_global w;
        _arena_static := {| data := data (_arena_static w);
                            capacity := capacity (_arena_static w);
                            pos := 0;
                            error := Some "no error"%string |};
        _arena_static_used := 1 |},
     Arg_arena).

(** [Arg_arena] is [&_arena_static]. *)
Definition deref (w : world) (p : arena_arg) : option arena_t :=
  match p with
  | Arg_null => None
  | Arg_arena => Some (_arena_static w)
  end.

Definition store (w : world) (g' : option string) (a' : option arena_t)
  : world :=
  {| _arena_error_global := g';
     _arena_static := match a' with
                      | Some a => a
                      | None => _arena_static w
                      end;
     _arena_static_used := _arena_static_used w |}.

(** The operations compiled under [ARENA_NOALLOC] ([arena_destroy] is not). *)
Inductive call :=
| Call_init
| Call_alloc (p : arena_arg) (size : Z)
| Call_alloc_aligned (p : arena_arg) (size alignment : Z)
| Call_reset (p : arena_arg)
| Call_error (p : arena_arg)
| Call_used (p : arena_arg)
| Call_capacity (p : arena_arg).

Definition step (w : world) (c : call) : world :=
  match c with
  | Call_init => fst (arena_init w)
  | Call_alloc p size =>
      let '(g', a', _) := arena_alloc (_arena_error_global w) (deref w p) size in
      store w g' a'
  | Call_alloc_aligned p size alignment =>
      let '(g', a', _) :=
        arena_alloc_aligned (_arena_error_global w) (deref w p) size alignment in
      store w g' a'
  | Call_reset p =>
      let '(g', a') := arena_reset (_arena_error_global w) (deref w p) in
      store w g' a'
  | Call_error _ | Call_used _ | Call_capacity _ => w
  end.

Definition run (w : world) (cs : list call) : world := fold_left step cs w.

End WithStaticConfig.
End NoAlloc.

(** ** Reachable arena states *)

Section Live.
Context {P : Platform}.

(** The invariant of the cursor, with the range of the two
    [unsigned long] fields. *)
Definition arena_ok (a : arena_t) : Prop :=
  0 <= pos a /\ pos a <= capacity a /\ capacity a <= ULONG_MAX.

(** A call on a non-null arena. *)
Inductive op :=
| Op_alloc (size : Z)
| Op_alloc_aligned (size alignment : Z)
| Op_reset.

(** The arguments are values of their C type [int]. *)
Definition op_args_ok (o : op) : Prop :=
  match o with
  | Op_alloc size => is_int size
  | Op_alloc_aligned size alignment => is_int size /\ is_int alignment
  | Op_reset => True
  end.

(** Contents of [*arena] after the call. *)
Definition apply_op (a : arena_t) (o : op) : arena_t :=
  let a' :=
    match o with
    | Op_alloc size => snd (fst (arena_alloc None (Some a) size))
    | Op_alloc_aligned size alignment =>
        snd (fst (arena_alloc_aligned None (Some a) size alignment))
    | Op_reset => snd (arena_reset None (Some a))
    end in
  match a' with
  | Some a1 => a1
  | None => a
  end.

(** What a successful construction returns, in either configuration. *)
Inductive constructed : arena_t -> Prop :=
| constructed_dynamic (A : Allocator) g size g' a :
    is_int size ->
    Dynamic.arena_init g size = (g', Some a) ->
    constructed a
| constructed_static (C : StaticConfig) cs w' :
    NoAlloc.arena_init (NoAlloc.run NoAlloc.world_init cs) = (w', Arg_arena) ->
    constructed (NoAlloc._arena_static w').

(** A live arena: constructed, then used through the API. *)
Definition live (a : arena_t) : Prop :=
  exists a0 ops,
    constructed a0 /\ Forall op_args_ok ops /\ a = fold_left apply_op ops a0.

(** Every message the implementation stores. *)
Definition messages : list string :=
  [ "no error"; "out of memory (arena struct)"; "out of memory (arena data)";
    "static arena already used"; "null arena"; "invalid allocation size";
    "arena overflow"; "alignment must be power of two";
    "arena overflow (aligned)" ]%string.

Definition is_message (m : option string) : Prop :=
  exists s, m = Some s /\ In s messages.

(** What the dynamic configuration maintains: the global slot holds one of
    the messages and so does the error field of the client's arena. *)
Definition dynamic_errors_ok (w : Dynamic.world) : Prop :=
  is_message (Dynamic._arena_error_global w)
  /\ forall a, Dynamic.client_arena w = Some a -> is_message (error a).

(** What the static configuration maintains: the global slot holds one of
    the messages; the error field of [_arena_static] holds one or is
    still [NULL]. *)
Definition static_errors_ok (w : NoAlloc.world) : Prop :=
  is_message (NoAlloc._arena_error_global w)
  /\ (error (NoAlloc._arena_static w) = NULL
      \/ is_message (error (NoAlloc._arena_static w))).

End Live.

(** ** Example configurations *)

(** An allocator in the manner of a hosted [malloc]: a request of up to
    1 GiB is served (a zero-byte request too, with a valid pointer), a larger
    one is refused.  The struct is placed at [0x1000], the storage at
    [0x2000]. *)
Definition hosted_malloc : Allocator :=
  {| ARENA_MALLOC := fun n => if n =? 32 then Some 4096
                              else if n <=? 2 ^ 30 then Some 8192
                              else NULL;
     SIZEOF_ARENA_T := 32 |}.

(** An allocator that serves every request: the struct at [0x1000], the
    storage at [0x100000000]. *)
Definition huge_malloc : Allocator :=
  {| ARENA_MALLOC := fun n => if n =? 24 then Some 4096 else Some (2 ^ 32);
     SIZEOF_ARENA_T := 24 |}.

(** An allocator of a 32-bit address space that serves requests below
    2 GiB, at addresses that are multiples of 16: the struct at [0x1000],
    the storage at [0x10000010]. *)
Definition malloc32 : Allocator :=
  {| ARENA_MALLOC := fun n => if n =? 16 then Some 4096
                              else if n <? 2 ^ 31 then Some 268435472
                              else NULL;
     SIZEOF_ARENA_T := 16 |}.

(** The configuration of [examples/arena.c]: [ARENA_SIZE] is 1024. *)
Definition example_config : StaticConfig :=
  {| ARENA_SIZE := 1024; _arena_static_data := 8192 |}.

(** Call sequences of a client of the dynamic configuration.  [fill_huge]
    constructs an arena from the size [-1] and allocates all of it;
    [fill32] constructs one of [INT_MAX] bytes and allocates all of it
    (the numbers are those of a 32-bit [int]). *)
Definition fill_huge : list Dynamic.call :=
  [ Dynamic.Call_init (-1);
    Dynamic.Call_alloc Arg_arena 2147483647;
    Dynamic.Call_alloc Arg_arena 2147483647;
    Dynamic.Call_alloc Arg_arena 1 ].

Definition fill32 : list Dynamic.call :=
  [ Dynamic.Call_init 2147483647;
    Dynamic.Call_alloc Arg_arena 2147483647 ].

(** The arenas these two sequences leave behind. *)
Definition full_huge_arena : arena_t :=
  {| data := 4294967296; capacity := 4294967295; pos := 4294967295;
     error := Some "no error"%string |}.

Definition full_arena32 : arena_t :=
  {| data := 268435472; capacity := 2147483647; pos := 2147483647;
     error := Some "no error"%string |}.

(** Calls of a client of the static configuration, after its first
    [arena_init()]. *)
Definition static_calls : list NoAlloc.call :=
  [ NoAlloc.Call_reset Arg_arena;
    NoAlloc.Call_reset Arg_null;
    NoAlloc.Call_init;
    NoAlloc.Call_alloc Arg_arena 128;
    NoAlloc.Call_alloc_aligned Arg_arena 4 8;
    NoAlloc.Call_error Arg_arena;
    NoAlloc.Call_used Arg_arena;
    NoAlloc.Call_capacity Arg_arena ].

(** The arenas of the two scenarios of the specification: capacity 100 with
    60 bytes in use, and capacity 16 with 1 byte in use (here on storage at an
    odd address). *)
Definition scenario_arena : arena_t :=
  {| data := 8192; capacity := 100; pos := 60;
     error := Some "no error"%string |}.

Definition unaligned_arena : arena_t :=
  {| data := 8193; capacity := 16; pos := 1;
     error := Some "no error"%string |}.

(** ** Addresses handed out by a sequence of calls *)

Section Allocations.
Context {P : Platform}.

(** The C return value of a call on a non-null arena ([arena_reset] returns
    nothing). *)
Definition op_result (a : arena_t) (o : op) : ptr :=
  match o with
  | Op_alloc size => snd (arena_alloc None (Some a) size)
  | Op_alloc_aligned size alignment =>
      snd (arena_alloc_aligned None (Some a) size alignment)
  | Op_reset => NULL
  end.

(** The [size] argument of an allocation call. *)
Definition op_size (o : op) : Z :=
  match o with
  | Op_alloc size => size
  | Op_alloc_aligned size _ => size
  | Op_reset => 0
  end.

(** The byte ranges (address, size) that the calls [ops], made in this order
    on an arena holding [a], return to the caller; a call that returns [NULL]
    contributes none. *)
Fixpoint allocations (a : arena_t) (ops : list op) : list (Z * Z) :=
  match ops with
  | [] => []
  | o :: ops' =>
      match op_result a o with
      | Some p => (p, op_size o) :: allocations (apply_op a o) ops'
      | None => allocations (apply_op a o) ops'
      end
  end.

(** Ranges that follow one another without overlap between the addresses
    [lo] and [hi]. *)
Fixpoint laid_out (lo : Z) (rs : list (Z * Z)) (hi : Z) : Prop :=
  match rs with
  | [] => lo <= hi
  | (p, n) :: rs' => lo <= p /\ 0 < n /\ laid_out (p + n) rs' hi
  end.

(** Two byte ranges with no byte in common, the first below the second. *)
Definition precedes (r1 r2 : Z * Z) : Prop := fst r1 + snd r1 <= fst r2.

End Allocations.

(** Whether a call of the static configuration passes [NULL] to one of the
    two allocation functions. *)
Definition allocates_on_null (c : NoAlloc.call) : bool :=
  match c with
  | NoAlloc.Call_alloc Arg_null _ => true
  | NoAlloc.Call_alloc_aligned Arg_null _ _ => true
  | _ => false
  end.

(** ** Lock hooks and writes

    The calls of [ARENA_LOCK()] and [ARENA_UNLOCK()], of the allocation
    hooks, and the assignments to the arena's fields and to the file-scope
    variables, in the order in which a call of each function performs
    them.  Each traced function returns what the function above of the
    same name returns, and the events of the path taken. *)

Inductive event :=
| Ev_lock              (* ARENA_LOCK() *)
| Ev_unlock            (* ARENA_UNLOCK() *)
| Ev_malloc            (* ARENA_MALLOC(...) *)
| Ev_free              (* ARENA_FREE(...) *)
| Ev_write_global      (* _arena_error_global = ... *)
| Ev_write_used        (* _arena_static_used = 1 *)
| Ev_write_data        (* arena->data = ... *)
| Ev_write_capacity    (* arena->capacity = ... *)
| Ev_write_pos         (* arena->pos = ... *)
| Ev_write_error.      (* arena->error = ... *)

Section Traced.
Context {P : Platform}.

Definition arena_alloc_traced
  (g : option string) (arena : option arena_t) (size : Z)
  : (option string * option arena_t * ptr) * list event :=
  match arena with
  | None => ((Some "null arena"%string, None, NULL), [Ev_write_global])
  | Some a =>
      if size <=? 0 then
        ((g, Some (set_error a "invalid allocation size"%string), NULL),
         [Ev_write_error])
      else if to_ulong (pos a + to_ulong size) >? capacity a then
        ((g, Some (set_error a "arena overflow"%string), NULL),
         [Ev_lock; Ev_write_error; Ev_unlock])
      else
        ((g,
          Some {| data := data a;
                  capacity := capacity a;
                  pos := to_ulong (pos a + to_ulong size);
                  error := Some "no error"%string |},
          Some (data a + pos a)),
         [Ev_lock; Ev_write_pos; Ev_write_error; Ev_unlock])
  end.

Definition arena_alloc_aligned_traced
  (g : option string) (arena : option arena_t) (size alignment : Z)
  : (option string * option arena_t * ptr) * list event :=
  match arena with
  | None => ((Some "null arena"%string, None, NULL), [Ev_write_global])
  | Some a =>
      if size <=? 0 then
        ((g, Some (set_error a "invalid allocation size"%string), NULL),
         [Ev_write_error])
      else if (alignment <=? 0)
              || negb (Z.land alignment (alignment - 1) =? 0) then
        ((g, Some (set_error a "alignment must be power of two"%string), NULL),
         [Ev_write_error])
      else
        let current_addr := to_ulong (data a + pos a) in
        let offset :=
          to_ulong (to_ulong alignment - current_addr mod to_ulong alignment)
          mod to_ulong alignment in
        let new_pos := to_ulong (pos a + offset) in
        if to_ulong (new_pos + to_ulong size) >? capacity a then
          ((g, Some (set_error a "arena overflow (aligned)"%string), NULL),
           [Ev_lock; Ev_write_error; Ev_unlock])
        else
          ((g,
            Some {| data := data a;
                    capacity := capacity a;
                    pos := to_ulong (new_pos + to_ulong size);
                    error := Some "no error"%string |},
            Some (data a + new_pos)),
           [Ev_lock; Ev_write_pos; Ev_write_error; Ev_unlock])
  end.

Definition arena_reset_traced (g : option string) (arena : option arena_t)
  : (option string * option arena_t) * list event :=
  match arena with
  | None => ((g, None), [])
  | Some a =>
      ((g,
        Some {| data := data a; capacity := capacity a;
                pos := 0; error := Some "no error"%string |}),
       [Ev_lock; Ev_write_pos; Ev_write_error; Ev_unlock])
  end.

Definition arena_init_traced {A : Allocator} (g : option string) (size : Z)
  : (option string * option arena_t) * list event :=
  match ARENA_MALLOC SIZEOF_ARENA_T with
  | None =>
      ((Some "out of memory (arena struct)"%string, NULL),
       [Ev_lock; Ev_malloc; Ev_write_global; Ev_unlock])
  | Some _ =>
      match ARENA_MALLOC (to_ulong size) with
      | None =>
          ((Some "out of memory (arena data)"%string, NULL),
           [Ev_lock; Ev_malloc; Ev_malloc; Ev_write_data; Ev_free;
            Ev_write_global; Ev_unlock])
      | Some d =>
          ((g,
            Some {| data := d; capacity := to_ulong size;
                    pos := 0; error := Some "no error"%string |}),
           [Ev_lock; Ev_malloc; Ev_malloc; Ev_write_data; Ev_write_capacity;
            Ev_write_pos; Ev_write_error; Ev_unlock])
      end
  end.

Definition arena_destroy_traced (g : option string) (arena : option arena_t)
  : (option string * option arena_t) * list event :=
  match arena with
  | None => ((g, None), [])
  | Some _ =>
      ((Some "no error"%string, None),
       [Ev_lock; Ev_free; Ev_free; Ev_write_global; Ev_unlock])
  end.

Definition static_arena_init_traced (w : NoAlloc.world)
  : (NoAlloc.world * arena_arg) * list event :=
  if negb (NoAlloc._arena_static_used w =? 0) then
    (({| NoAlloc._arena_error_global := NoAlloc._arena_error_global w;
         NoAlloc._arena_static :=
           set_error (NoAlloc._arena_static w)
             "static arena already used"%string;
         NoAlloc._arena_static_used := NoAlloc._arena_static_used w |},
      Arg_null),
     [Ev_lock; Ev_write_error; Ev_unlock])
  else
    (({| NoAlloc._arena_error_global := NoAlloc._arena_error_global w;
         NoAlloc._arena_static :=
           {| data := data (NoAlloc._arena_static w);
              capacity := capacity (NoAlloc._arena_static w);
              pos := 0;
              error := Some "no error"%string |};
         NoAlloc._arena_static_used := 1 |},
      Arg_arena),
     [Ev_lock; Ev_write_pos; Ev_write_error; Ev_write_used; Ev_unlock]).

End Traced.

(** Whether a sequence of events, started with the lock held or not
    ([held]), takes the lock only when it is free, releases it only when it
    is held, and ends with it free. *)
Fixpoint well_bracketed (held : bool) (evs : list event) : bool :=
  match evs with
  | [] => negb held
  | Ev_lock :: evs' => negb held && well_bracketed true evs'
  | Ev_unlock :: evs' => held && well_bracketed false evs'
  | _ :: evs' => well_bracketed held evs'
  end.

(** The events, other than those of the hooks themselves, that happen while
    the lock is not held. *)
Fixpoint unprotected (held : bool) (evs : list event) : list event :=
  match evs with
  | [] => []
  | Ev_lock :: evs' => unprotected true evs'
  | Ev_unlock :: evs' => unprotected false evs'
  | e :: evs' => if held then unprotected held evs'
                 else e :: unprotected held evs'
  end.

(** ** The program [examples/arena.c] *)

Module Example.

(** What [main] prints: the message of one of its two [fprintf(stderr, ...)]
    calls with the string passed for [%s], or that of its [printf] with the
    address passed for [%p]. *)
Inductive output :=
| Arena_init_error (msg : option string)
| Arena_alloc_error (msg : option string)
| Allocated_128_bytes_at (p : Z).

(** [ARENA_SIZE] is 1024; the address of [_arena_static_data] is the
    linker's. *)
Definition config (static_data : Z) : StaticConfig :=
  {| ARENA_SIZE := 1024; _arena_static_data := static_data |}.

(** [main]: the file-scope variables it leaves, its return value and its
    output. *)
Definition main {P : Platform} (w : NoAlloc.world)
  : NoAlloc.world * Z * output :=
  let '(w1, arena) := NoAlloc.arena_init w in
  match NoAlloc.deref w1 arena with
  | None =>
      (w1, 1, Arena_init_error (arena_error (NoAlloc._arena_error_global w1) NULL))
  | Some a =>
      let '(g', a', p) := arena_alloc (NoAlloc._arena_error_global w1) (Some a) 128 in
      let w2 := NoAlloc.store w1 g' a' in
      match p with
      | None =>
          (w2, 1,
           Arena_alloc_error
             (arena_error (NoAlloc._arena_error_global w2)
                (NoAlloc.deref w2 arena)))
      | Some addr => (w2, 0, Allocated_128_bytes_at addr)
      end
  end.

End Example.

(** ** Pointer values

    The functions above return an address as the exact sum [data + n], and
    [NULL] apart from every address.  In the program a pointer has the width
    of the address space: [c_pointer ptr_bits r] is the value of the
    returned pointer [r] where pointers have [ptr_bits] bits.  [NULL] is 0
    and an address is reduced modulo [2 ^ ptr_bits], so that a sum that
    leaves the address space can be the null pointer. *)
Definition c_pointer (ptr_bits : Z) (r : ptr) : Z :=
  match r with
  | None => 0
  | Some p => p mod 2 ^ ptr_bits
  end.

(** The storage of [a] is an object of an address space of [ptr_bits]
    bits: its [capacity] bytes lie between address 1 and the end of the
    address space. *)
Definition storage_ok (ptr_bits : Z) (a : arena_t) : Prop :=
  0 < data a /\ data a + capacity a <= 2 ^ ptr_bits.

(** An arena of [INT_MAX] bytes, all in use, whose storage ends 256 bytes
    below the end of a 32-bit address space. *)
Definition high_arena32 : arena_t :=
  {| data := 2147483392; capacity := 2147483647; pos := 2147483647;
     error := Some "no error"%string |}.

(** ** Integer conversions *)

Section Arithmetic.
Context {P : Platform}.
Hypothesis P_ok : platform_ok.

Lemma ulong_modulus_pos : 0 < 2 ^ ULONG_BITS.
Proof. destruct P_ok as (_ & _ & ?). apply Z.pow_pos_nonneg; lia. Qed.

Lemma to_ulong_range (z : Z) : 0 <= to_ulong z <= ULONG_MAX.
Proof.
  unfold to_ulong, ULONG_MAX.
  pose proof (Z.mod_pos_bound z _ ulong_modulus_pos). lia.
Qed.

Lemma to_ulong_id (z : Z) : 0 <= z <= ULONG_MAX -> to_ulong z = z.
Proof.
  unfold to_ulong, ULONG_MAX. intros. apply Z.mod_small. lia.
Qed.

Lemma INT_MAX_pos : 0 < INT_MAX.
Proof.
  unfold INT_MAX. destruct P_ok as (? & _).
  assert (2 ^ 1 <= 2 ^ (INT_BITS - 1)) by (apply Z.pow_le_mono_r; lia).
  change (2 ^ 1) with 2 in *. lia.
Qed.

(** Twice [INT_MAX] still fits an [unsigned long]. *)
Lemma twice_INT_MAX : 2 * INT_MAX + 1 <= ULONG_MAX.
Proof.
  unfold INT_MAX, ULONG_MAX. destruct P_ok as (? & ? & ?).
  assert (2 ^ INT_BITS <= 2 ^ ULONG_BITS) by (apply Z.pow_le_mono_r; lia).
  replace (2 ^ INT_BITS) with (2 * 2 ^ (INT_BITS - 1)) in *; [lia|].
  rewrite <- Z.pow_succ_r by lia. f_equal. lia.
Qed.

Lemma to_ulong_int (n : Z) : is_int n -> 0 <= n -> to_ulong n = n.
Proof.
  intros [_ ?] ?. apply to_ulong_id.
  pose proof twice_INT_MAX. pose proof INT_MAX_pos. lia.
Qed.

(** A negative [int] converts to [2 ^ ULONG_BITS + n]. *)
Lemma to_ulong_negative (n : Z) :
  is_int n -> n < 0 -> to_ulong n = 2 ^ ULONG_BITS + n.
Proof.
  intros [Hlo _] Hn. unfold to_ulong.
  assert (- ULONG_MAX <= n).
  { pose proof twice_INT_MAX. unfold INT_MIN, INT_MAX in *. lia. }
  unfold ULONG_MAX in *.
  symmetry. apply Z.mod_unique_pos with (q := -1); lia.
Qed.

End Arithmetic.

(** ** Powers of two and rounding up *)

(** The test [(alignment & (alignment - 1)) != 0] of a positive value
    passes exactly the powers of two. *)
Lemma land_pred_zero_pow2 (a : Z) :
  0 < a -> Z.land a (a - 1) = 0 -> exists k, 0 <= k /\ a = 2 ^ k.
Proof.
  intros Ha Hland.
  pose proof (Z.log2_spec a Ha) as [Hlo Hhi].
  pose proof (Z.log2_nonneg a) as Hk.
  exists (Z.log2 a). split; [assumption|].
  destruct (Z.eq_dec a (2 ^ Z.log2 a)) as [|Hne]; [assumption|exfalso].
  assert (Hlog : Z.log2 (a - 1) = Z.log2 a).
  { apply Z.log2_unique; [assumption|]. lia. }
  assert (Hbit1 : Z.testbit (a - 1) (Z.log2 a) = true).
  { rewrite <- Hlog. apply Z.bit_log2. lia. }
  assert (Hbit2 : Z.testbit a (Z.log2 a) = true) by (apply Z.bit_log2; lia).
  assert (Hbit : Z.testbit (Z.land a (a - 1)) (Z.log2 a) = true).
  { rewrite Z.land_spec, Hbit1, Hbit2. reflexivity. }
  rewrite Hland, Z.bits_0 in Hbit. discriminate.
Qed.

Lemma pow2_land_pred_zero (k : Z) : 0 <= k -> Z.land (2 ^ k) (2 ^ k - 1) = 0.
Proof.
  intros Hk.
  replace (2 ^ k - 1) with (Z.ones k) by (rewrite Z.ones_equiv; lia).
  apply Z.bits_inj'. intros n Hn.
  rewrite Z.land_spec, Z.bits_0, Z.pow2_bits_eqb by lia.
  destruct (Z.eqb_spec k n) as [->|Hne]; [|reflexivity].
  rewrite Z.ones_spec_high by lia. reflexivity.
Qed.

(** The padding [(a - x % a) % a] moves [x] to the next multiple of [a]. *)
Section RoundUp.
Variables (a x : Z).
Hypothesis a_pos : 0 < a.

Let padding : Z := (a - x mod a) mod a.

Lemma padding_range : 0 <= padding < a.
Proof. apply Z.mod_pos_bound. assumption. Qed.

Lemma padding_aligned : (x + padding) mod a = 0.
Proof.
  unfold padding.
  rewrite Z.add_mod_idemp_r by lia.
  replace (x + (a - x mod a)) with (a + (x - x mod a)) by lia.
  rewrite (Z.div_mod x a) at 1 by lia.
  replace (a + (a * (x / a) + x mod a - x mod a)) with ((1 + x / a) * a) by lia.
  apply Z.mod_mul. lia.
Qed.

Lemma padding_least (y : Z) : x <= y -> y mod a = 0 -> x + padding <= y.
Proof.
  intros Hxy Hy. unfold padding.
  pose proof (Z.mod_pos_bound x a a_pos) as Hr.
  pose proof (Z.div_mod x a ltac:(lia)) as Hx.
  pose proof (Z.div_mod y a ltac:(lia)) as Hy'. rewrite Hy in Hy'.
  destruct (Z.eq_dec (x mod a) 0) as [E|E].
  - rewrite E, Z.sub_0_r, Z.mod_same by lia. lia.
  - rewrite Z.mod_small by lia.
    assert (x / a < y / a) by nia. nia.
Qed.

End RoundUp.

(** ** The two allocation functions on a non-null arena *)

Section AllocFacts.
Context {P : Platform}.
Hypothesis P_ok : platform_ok.

(** An [int] that passes the power-of-two test divides the modulus of
    [unsigned long] arithmetic. *)
Lemma alignment_divides_modulus (al : Z) :
  is_int al -> 0 < al -> Z.land al (al - 1) = 0 -> (al | 2 ^ ULONG_BITS).
Proof.
  intros [_ Hmax] Hpos Hland.
  destruct (land_pred_zero_pow2 al Hpos Hland) as (k & Hk & ->).
  destruct P_ok as (? & ? & ?).
  assert (k < INT_BITS - 1).
  { apply (Z.pow_lt_mono_r_iff 2); [lia|lia|]. unfold INT_MAX in Hmax. lia. }
  exists (2 ^ (ULONG_BITS - k)).
  rewrite <- Z.pow_add_r by lia. f_equal. lia.
Qed.

(** [arena_alloc] once its argument checks have passed. *)
Lemma arena_alloc_checked g a n :
  is_int n -> 0 < n ->
  arena_alloc g (Some a) n =
    if to_ulong (pos a + n) >? capacity a then
      (g, Some (set_error a "arena overflow"%string), NULL)
    else
      (g,
       Some {| data := data a; capacity := capacity a;
               pos := to_ulong (pos a + n); error := Some "no error"%string |},
       Some (data a + pos a)).
Proof.
  intros Hint Hn. unfold arena_alloc.
  destruct (Z.leb_spec n 0); [lia|].
  rewrite (to_ulong_int P_ok n) by (assumption || lia). reflexivity.
Qed.

(** [arena_alloc_aligned] once its argument checks have passed: the padding
    is [(al - addr % al) % al] for the exact address [addr] of the cursor. *)
Lemma arena_alloc_aligned_checked g a n al :
  is_int n -> 0 < n -> is_int al -> 0 < al -> Z.land al (al - 1) = 0 ->
  arena_alloc_aligned g (Some a) n al =
    let new_pos :=
      to_ulong (pos a + (al - (data a + pos a) mod al) mod al) in
    if to_ulong (new_pos + n) >? capacity a then
      (g, Some (set_error a "arena overflow (aligned)"%string), NULL)
    else
      (g,
       Some {| data := data a; capacity := capacity a;
               pos := to_ulong (new_pos + n); error := Some "no error"%string |},
       Some (data a + new_pos)).
Proof.
  intros Hn Hn0 Hal Hal0 Hland. unfold arena_alloc_aligned.
  destruct (Z.leb_spec n 0); [lia|].
  destruct (Z.leb_spec al 0); [lia|].
  rewrite Hland. cbn [orb negb Z.eqb]. cbv zeta.
  rewrite (to_ulong_int P_ok n), (to_ulong_int P_ok al) by (assumption || lia).
  assert (Hmod : to_ulong (data a + pos a) mod al = (data a + pos a) mod al).
  { unfold to_ulong. apply Z.mod_mod_divide.
    apply alignment_divides_modulus; assumption. }
  rewrite Hmod.
  pose proof (Z.mod_pos_bound (data a + pos a) al Hal0).
  rewrite (to_ulong_int P_ok (al - (data a + pos a) mod al)).
  - reflexivity.
  - destruct Hal. unfold is_int. pose proof (INT_MAX_pos P_ok).
    unfold INT_MIN. pose proof (Z.pow_nonneg 2 (INT_BITS - 1)). lia.
  - lia.
Qed.

(** Failure of [arena_alloc] leaves the cursor, the capacity and the
    storage address as they were. *)
Lemma arena_alloc_failure_frame g a n g' a' :
  arena_alloc g (Some a) n = (g', Some a', NULL) ->
  pos a' = pos a /\ capacity a' = capacity a /\ data a' = data a.
Proof.
  unfold arena_alloc.
  destruct (n <=? 0); [|destruct (_ >? _)]; intros [= <- <-] || intros [=];
    auto.
Qed.

(** Refusal by [arena_alloc_aligned], whichever check refused the call,
    leaves the cursor, the capacity and the storage address as they
    were. *)
Lemma arena_alloc_aligned_refusal_frame g a n al g' a' :
  arena_alloc_aligned g (Some a) n al = (g', Some a', NULL) ->
  pos a' = pos a /\ capacity a' = capacity a /\ data a' = data a.
Proof.
  unfold arena_alloc_aligned. cbv zeta.
  destruct (n <=? 0); [|destruct (_ || _); [|destruct (_ >? _)]];
    intros [= <- <-] || intros [=]; auto.
Qed.

End AllocFacts.

(** ** Behaviour of [arena_alloc] and [arena_alloc_aligned] where the
    [unsigned long] sums do not wrap *)

Section AllocSpec.
Context {P : Platform}.
Hypothesis P_ok : platform_ok.

(** Where [pos + n] is representable, the comparison of [arena_alloc] is
    the comparison of the exact sum. *)
Lemma arena_alloc_no_wrap g a n :
  arena_ok a -> is_int n -> 0 < n -> pos a + n <= ULONG_MAX ->
  arena_alloc g (Some a) n =
    if pos a + n >? capacity a then
      (g, Some (set_error a "arena overflow"%string), NULL)
    else
      (g,
       Some {| data := data a; capacity := capacity a;
               pos := pos a + n; error := Some "no error"%string |},
       Some (data a + pos a)).
Proof.
  intros (Hp0 & Hpc & Hc) Hint Hn Hrep.
  rewrite (arena_alloc_checked P_ok) by assumption.
  rewrite (to_ulong_id (pos a + n)) by lia.
  reflexivity.
Qed.

(** X1: a request that fits the remaining space is served at the cursor,
    which advances by the size of the request. *)
Theorem arena_alloc_fits g a n :
  arena_ok a -> is_int n -> 0 < n -> n <= capacity a - pos a ->
  arena_alloc g (Some a) n =
    (g,
     Some {| data := data a; capacity := capacity a;
             pos := pos a + n; error := Some "no error"%string |},
     Some (data a + pos a)).
Proof.
  intros Hok Hint Hn Hfit.
  rewrite arena_alloc_no_wrap by (assumption || (destruct Hok as (? & ? & ?); lia)).
  destruct (Z.gtb_spec (pos a + n) (capacity a)); [lia|reflexivity].
Qed.

(** X2: a request that does not fit is refused with "arena overflow" and
    nothing but the error field changes, provided [pos + n] is representable
    as an [unsigned long]. *)
Theorem arena_alloc_rejects g a n :
  arena_ok a -> is_int n -> 0 < n ->
  capacity a - pos a < n -> pos a + n <= ULONG_MAX ->
  arena_alloc g (Some a) n =
    (g, Some (set_error a "arena overflow"%string), NULL).
Proof.
  intros Hok Hint Hn Hbig Hrep.
  rewrite arena_alloc_no_wrap by assumption.
  destruct (Z.gtb_spec (pos a + n) (capacity a)); [reflexivity|lia].
Qed.

(** X3: the comparison of [arena_alloc] is exact for every capacity up to
    [ULONG_MAX - INT_MAX], in particular for every capacity that is a
    positive [int]. *)
Theorem arena_alloc_exact_check g a n :
  arena_ok a -> capacity a <= ULONG_MAX - INT_MAX -> is_int n -> 0 < n ->
  snd (arena_alloc g (Some a) n) = NULL <-> pos a + n > capacity a.
Proof.
  intros Hok Hcap Hint Hn.
  rewrite arena_alloc_no_wrap
    by (assumption || (destruct Hok as (? & ? & ?), Hint; lia)).
  destruct (Z.gtb_spec (pos a + n) (capacity a)); cbn.
  - split; [lia|reflexivity].
  - split; [discriminate|lia].
Qed.

(** Arguments that reach the allocation step of [arena_alloc_aligned]. *)
Lemma arena_alloc_aligned_served g a n al g' a' p :
  arena_alloc_aligned g (Some a) n al = (g', a', Some p) ->
  0 < n /\ 0 < al /\ Z.land al (al - 1) = 0.
Proof.
  unfold arena_alloc_aligned.
  destruct (Z.leb_spec n 0); [discriminate|].
  destruct (Z.leb_spec al 0); [discriminate|].
  destruct (Z.eqb_spec (Z.land al (al - 1)) 0); [|discriminate].
  intros _. repeat split; assumption.
Qed.

(** X4: whatever non-null address [arena_alloc_aligned] returns is a
    multiple of the alignment, for any address of the storage and also
    where the position wrapped. *)
Theorem arena_alloc_aligned_is_aligned g a n al g' a' p :
  is_int n -> is_int al ->
  arena_alloc_aligned g (Some a) n al = (g', a', Some p) ->
  p mod al = 0.
Proof.
  intros Hn Hal Hcall.
  destruct (arena_alloc_aligned_served _ _ _ _ _ _ _ Hcall) as (Hn0 & Hal0 & Hland).
  rewrite (arena_alloc_aligned_checked P_ok) in Hcall by assumption.
  cbv zeta in Hcall. destruct (_ >? _) in Hcall; [discriminate|].
  injection Hcall as _ _ <-.
  unfold to_ulong.
  rewrite <- Z.add_mod_idemp_r by lia.
  rewrite Z.mod_mod_divide
    by (apply (alignment_divides_modulus P_ok); assumption).
  rewrite Z.add_mod_idemp_r, Z.add_assoc by lia.
  apply padding_aligned. assumption.
Qed.

(** X5: the aligned position is the least [offset' >= pos] whose address
    [data + offset'] is a multiple of the alignment.  When [offset' + n] is
    representable, the call succeeds exactly when [offset' + n <= capacity];
    it then returns [data + offset'] and leaves the cursor at [offset' + n];
    otherwise it fails with "arena overflow (aligned)" and changes nothing
    but the error field. *)
Theorem arena_alloc_aligned_spec g a n al :
  arena_ok a -> is_int n -> 0 < n ->
  is_int al -> 0 < al -> Z.land al (al - 1) = 0 ->
  exists offset',
    (pos a <= offset' < pos a + al
     /\ (data a + offset') mod al = 0
     /\ forall y, data a + pos a <= y -> y mod al = 0 -> data a + offset' <= y)
    /\ (offset' + n <= ULONG_MAX ->
        arena_alloc_aligned g (Some a) n al =
          if offset' + n <=? capacity a then
            (g,
             Some {| data := data a; capacity := capacity a;
                     pos := offset' + n; error := Some "no error"%string |},
             Some (data a + offset'))
          else
            (g, Some (set_error a "arena overflow (aligned)"%string), NULL)).
Proof.
  intros (Hp0 & Hpc & Hc) Hn Hn0 Hal Hal0 Hland.
  pose proof (padding_range al (data a + pos a) Hal0) as Hpad.
  pose proof (padding_aligned al (data a + pos a) Hal0) as Haligned.
  pose proof (padding_least al (data a + pos a) Hal0) as Hleast.
  exists (pos a + (al - (data a + pos a) mod al) mod al).
  split; [repeat split|].
  - lia.
  - lia.
  - rewrite Z.add_assoc. assumption.
  - intros y Hy Hmod. specialize (Hleast y Hy Hmod). lia.
  - intros Hrep.
    rewrite (arena_alloc_aligned_checked P_ok) by assumption. cbv zeta.
    rewrite (to_ulong_id (pos a + _)) by lia.
    rewrite (to_ulong_id (pos a + _ + n)) by lia.
    destruct (Z.gtb_spec (pos a + (al - (data a + pos a) mod al) mod al + n)
                (capacity a));
      destruct (Z.leb_spec (pos a + (al - (data a + pos a) mod al) mod al + n)
                  (capacity a)); try lia; reflexivity.
Qed.

(** X10: for a positive size, [arena_alloc_aligned] refuses the alignment
    with "alignment must be power of two" exactly when the alignment is not
    [2 ^ k] for any [k >= 0]. *)
Theorem arena_alloc_aligned_alignment_check g a n al :
  0 < n ->
  arena_alloc_aligned g (Some a) n al
  = (g, Some (set_error a "alignment must be power of two"%string), NULL)
  <-> ~ (exists k, 0 <= k /\ al = 2 ^ k).
Proof.
  intros Hn. unfold arena_alloc_aligned.
  destruct (Z.leb_spec n 0); [lia|].
  destruct (Z.leb_spec al 0) as [Hal|Hal]; cbn [orb].
  - split; [|reflexivity].
    intros _ (k & Hk & ->). pose proof (Z.pow_pos_nonneg 2 k). lia.
  - destruct (Z.eqb_spec (Z.land al (al - 1)) 0) as [Hland|Hland]; cbn [negb].
    + split.
      * cbv zeta. destruct (_ >? _); intros [=].
      * intros Hno. exfalso. apply Hno.
        apply land_pred_zero_pow2; assumption.
    + split; [|reflexivity].
      intros _ (k & Hk & ->). apply Hland, pow2_land_pred_zero, Hk.
Qed.

End AllocSpec.

(** ** Invariants of reachable states *)

Lemma fold_left_invariant {S C : Type} (f : S -> C -> S) (I : S -> Prop) :
  (forall s c, I s -> I (f s c)) ->
  forall cs s, I s -> I (fold_left f cs s).
Proof.
  intros Hstep cs. induction cs as [|c cs IH]; intros s Hs; cbn.
  - assumption.
  - apply IH, Hstep, Hs.
Qed.

Section Invariants.
Context {P : Platform}.
Hypothesis P_ok : platform_ok.

(** No call moves the storage or changes the capacity, and the cursor stays
    within [0 .. capacity]: a position is stored only after the comparison
    with the capacity has accepted that same value. *)
Lemma apply_op_frame (a : arena_t) (o : op) :
  arena_ok a ->
  arena_ok (apply_op a o)
  /\ capacity (apply_op a o) = capacity a
  /\ data (apply_op a o) = data a.
Proof.
  intros (Hp0 & Hpc & Hc). unfold apply_op, arena_ok.
  destruct o as [n|n al|]; cbn.
  - destruct (n <=? 0); cbn; [lia|].
    destruct (Z.gtb_spec (to_ulong (pos a + to_ulong n)) (capacity a)); cbn;
      [lia|].
    pose proof (to_ulong_range P_ok (pos a + to_ulong n)). lia.
  - destruct (n <=? 0); cbn; [lia|].
    destruct (_ || _); cbn; [lia|].
    match goal with |- context [to_ulong ?s >? capacity a] =>
      destruct (Z.gtb_spec (to_ulong s) (capacity a)); cbn;
        [lia|pose proof (to_ulong_range P_ok s); lia]
    end.
  - lia.
Qed.

Lemma static_capacity_frame {C : StaticConfig} (cs : list NoAlloc.call) :
  capacity (NoAlloc._arena_static (NoAlloc.run NoAlloc.world_init cs))
  = to_ulong ARENA_SIZE.
Proof.
  unfold NoAlloc.run.
  apply (fold_left_invariant NoAlloc.step
           (fun w => capacity (NoAlloc._arena_static w) = to_ulong ARENA_SIZE));
    [|reflexivity].
  intros w c Hw. destruct c as [|p n|p n al|p|p|p|p]; cbn; try assumption.
  - unfold NoAlloc.arena_init. destruct (negb _); cbn; assumption.
  - destruct p; cbn; [assumption|].
    destruct (n <=? 0); cbn; [assumption|].
    destruct (_ >? _); cbn; assumption.
  - destruct p; cbn; [assumption|].
    destruct (n <=? 0); cbn; [assumption|].
    destruct (_ || _); cbn; [assumption|].
    destruct (_ >? _); cbn; assumption.
  - destruct p; cbn; assumption.
Qed.

Lemma constructed_ok (a : arena_t) : constructed a -> arena_ok a.
Proof.
  intros [A g size g' a0 Hsize Hinit | C cs w' Hinit]; unfold arena_ok.
  - unfold Dynamic.arena_init in Hinit.
    destruct (ARENA_MALLOC SIZEOF_ARENA_T); [|discriminate].
    destruct (ARENA_MALLOC (to_ulong size)); [|discriminate].
    injection Hinit as _ <-. cbn.
    pose proof (to_ulong_range P_ok size). lia.
  - pose proof (static_capacity_frame cs) as Hcap.
    unfold NoAlloc.arena_init in Hinit.
    destruct (negb _); [discriminate|].
    injection Hinit as <-. cbn. rewrite Hcap.
    pose proof (to_ulong_range P_ok ARENA_SIZE). lia.
Qed.

(** X6: in every state reachable from a construction,
    [0 <= pos <= capacity]; and an operation applied there leaves that
    invariant, the capacity and the storage address in place. *)
Theorem live_arena_ok (a : arena_t) (o : op) :
  live a ->
  arena_ok a
  /\ arena_ok (apply_op a o)
  /\ capacity (apply_op a o) = capacity a
  /\ data (apply_op a o) = data a.
Proof.
  intros (a0 & ops & Hcons & _ & ->).
  assert (Hok : arena_ok (fold_left apply_op ops a0)).
  { apply fold_left_invariant.
    - intros s c Hs. apply apply_op_frame, Hs.
    - apply constructed_ok, Hcons. }
  split; [assumption|]. apply apply_op_frame, Hok.
Qed.

End Invariants.

(** ** Monotonicity of the cursor *)

Section Monotone.
Context {P : Platform}.
Hypothesis P_ok : platform_ok.

(** X7: where the capacity leaves room for the largest padding and the
    largest size ([capacity + 2 * INT_MAX <= ULONG_MAX]: on a platform whose
    [unsigned long] is wider than [int], every capacity that is a positive
    [int]), a call other than a reset never moves the cursor back. *)
Theorem cursor_monotone (a : arena_t) (o : op) :
  arena_ok a -> op_args_ok o -> o <> Op_reset ->
  capacity a + 2 * INT_MAX <= ULONG_MAX ->
  pos a <= pos (apply_op a o).
Proof.
  intros (Hp0 & Hpc & Hc) Hargs Hop Hroom.
  pose proof (INT_MAX_pos P_ok) as Hmax.
  destruct o as [n|n al|]; [| |congruence]; unfold apply_op.
  - cbn in Hargs.
    destruct (Z_le_gt_dec n 0) as [Hn|Hn].
    + unfold arena_alloc. destruct (Z.leb_spec n 0); [cbn; lia|lia].
    + rewrite (arena_alloc_checked P_ok) by (assumption || lia).
      destruct (_ >? _); cbn; [lia|].
      rewrite to_ulong_id; destruct Hargs; lia.
  - destruct Hargs as [Hn Hal].
    destruct (Z_le_gt_dec n 0) as [Hn0|Hn0];
      [unfold arena_alloc_aligned; destruct (Z.leb_spec n 0); [cbn; lia|lia]|].
    destruct (Z_le_gt_dec al 0) as [Hal0|Hal0].
    { unfold arena_alloc_aligned. destruct (Z.leb_spec n 0); [lia|].
      destruct (Z.leb_spec al 0); [cbn; lia|lia]. }
    destruct (Z.eq_dec (Z.land al (al - 1)) 0) as [Hland|Hland].
    + rewrite (arena_alloc_aligned_checked P_ok) by (assumption || lia).
      cbv zeta.
      pose proof (Z.mod_pos_bound (al - (data a + pos a) mod al) al
                    ltac:(lia)) as Hpad.
      destruct Hn, Hal.
      rewrite (to_ulong_id (pos a + _)) by lia.
      destruct (_ >? _); cbn; [lia|].
      rewrite to_ulong_id; lia.
    + unfold arena_alloc_aligned. destruct (Z.leb_spec n 0); [lia|].
      destruct (Z.leb_spec al 0); [lia|].
      destruct (Z.eqb_spec (Z.land al (al - 1)) 0); [contradiction|].
      cbn. lia.
Qed.

End Monotone.

(** ** Reset *)

(** C8: [arena_reset] on any arena sets the offset to 0 and clears the
    error, leaving the global slot, the capacity and the storage alone; a
    second reset changes nothing more; and on [NULL] it returns without
    touching anything, the global error slot included. *)
Theorem arena_reset_idempotent (g : option string) (a : arena_t) :
  exists a',
    arena_reset g (Some a) = (g, Some a')
    /\ pos a' = 0
    /\ arena_used (Some a') = 0
    /\ error a' = Some "no error"%string
    /\ arena_error g (Some a') = Some "no error"%string
    /\ capacity a' = capacity a
    /\ data a' = data a
    /\ arena_reset g (Some a') = (g, Some a')
    /\ arena_reset g NULL = (g, NULL).
Proof.
  eexists. split; [reflexivity|]. cbn. repeat split; reflexivity.
Qed.

(** ** The error slot *)

Ltac known_message := eexists; split; [reflexivity | cbn; tauto].

Section ErrorSlot.
Context {P : Platform}.

Lemma arena_alloc_messages g a n g' a' r :
  arena_alloc g a n = (g', a', r) ->
  is_message g ->
  is_message g'
  /\ forall a1, a' = Some a1 -> is_message (error a1).
Proof.
  unfold arena_alloc. intros Hcall Hg.
  destruct a as [a|]; [destruct (n <=? 0); [|destruct (_ >? _)]|];
    injection Hcall as <- <- _;
    (split; [assumption || known_message | intros ? [= <-]; known_message])
    || (split; [known_message | discriminate]).
Qed.

Lemma arena_alloc_aligned_messages g a n al g' a' r :
  arena_alloc_aligned g a n al = (g', a', r) ->
  is_message g ->
  is_message g'
  /\ forall a1, a' = Some a1 -> is_message (error a1).
Proof.
  unfold arena_alloc_aligned. cbv zeta. intros Hcall Hg.
  destruct a as [a|];
    [destruct (n <=? 0); [|destruct (_ || _); [|destruct (_ >? _)]]|];
    injection Hcall as <- <- _;
    (split; [assumption || known_message | intros ? [= <-]; known_message])
    || (split; [known_message | discriminate]).
Qed.

Lemma dynamic_step_errors_ok {A : Allocator} w c :
  dynamic_errors_ok w -> dynamic_errors_ok (Dynamic.step w c).
Proof.
  intros [Hg Ha]. unfold dynamic_errors_ok.
  destruct c as [n|p n|p n al|p|p|p]; cbn.
  - unfold Dynamic.arena_init.
    destruct (ARENA_MALLOC SIZEOF_ARENA_T);
      [destruct (ARENA_MALLOC (to_ulong n))|]; cbn;
      (split; [assumption || known_message|]);
      intros ? [= <-] || discriminate; known_message.
  - destruct (arena_alloc _ _ n) as [[g' a'] r] eqn:E.
    destruct (arena_alloc_messages _ _ _ _ _ _ E Hg) as [Hg' Ha'].
    destruct p; cbn in *; split; auto.
  - destruct (arena_alloc_aligned _ _ n al) as [[g' a'] r] eqn:E.
    destruct (arena_alloc_aligned_messages _ _ _ _ _ _ _ E Hg) as [Hg' Ha'].
    destruct p; cbn in *; split; auto.
  - destruct p; cbn; [split; assumption|].
    destruct (Dynamic.client_arena w); cbn; split; try assumption;
      intros ? [= <-] || discriminate; known_message.
  - destruct p; cbn; [split; assumption|].
    destruct (Dynamic.client_arena w); cbn;
      (split; [assumption || known_message | discriminate]).
  - split; assumption.
Qed.

Lemma static_step_errors_ok {C : StaticConfig} w c :
  static_errors_ok w -> static_errors_ok (NoAlloc.step w c).
Proof.
  intros [Hg Ha]. unfold static_errors_ok.
  destruct c as [|p n|p n al|p|p|p|p]; cbn; try (split; assumption).
  - unfold NoAlloc.arena_init. destruct (negb _); cbn;
      (split; [assumption | right; known_message]).
  - destruct (arena_alloc _ _ n) as [[g' a'] r] eqn:E.
    destruct (arena_alloc_messages _ _ _ _ _ _ E Hg) as [Hg' Ha'].
    split; [assumption|]. cbn.
    destruct a' as [a1|]; [right; apply Ha'; reflexivity | assumption].
  - destruct (arena_alloc_aligned _ _ n al) as [[g' a'] r] eqn:E.
    destruct (arena_alloc_aligned_messages _ _ _ _ _ _ _ E Hg) as [Hg' Ha'].
    split; [assumption|]. cbn.
    destruct a' as [a1|]; [right; apply Ha'; reflexivity | assumption].
  - destruct p; cbn; (split; [assumption|]);
      [assumption | right; known_message].
Qed.

(** C10: in every state either configuration can reach from its initial
    one, [arena_error] returns a string and never [NULL], for the arena and
    for a [NULL] argument alike; the string is the canonical "no error" or an
    error message the implementation recorded. *)
Theorem arena_error_never_null :
  (forall (A : Allocator) (cs : list Dynamic.call) (p : arena_arg),
     let w := Dynamic.run Dynamic.world_init cs in
     is_message (arena_error (Dynamic._arena_error_global w) (Dynamic.deref w p)))
  /\ (forall (C : StaticConfig) (cs : list NoAlloc.call) (p : arena_arg),
        let w := NoAlloc.run NoAlloc.world_init cs in
        is_message (arena_error (NoAlloc._arena_error_global w) (NoAlloc.deref w p))).
Proof.
  split.
  - intros A cs p w.
    assert (Hw : dynamic_errors_ok w).
    { subst w. unfold Dynamic.run. apply fold_left_invariant.
      - intros s c. apply dynamic_step_errors_ok.
      - split; [known_message | discriminate]. }
    destruct Hw as [Hg Ha]. destruct p; cbn; [assumption|].
    destruct (Dynamic.client_arena w) as [a|] eqn:E; [|assumption].
    destruct (Ha a eq_refl) as (s & Hs & Hin). cbn. rewrite Hs.
    exists s. split; [reflexivity | assumption].
  - intros C cs p w.
    assert (Hw : static_errors_ok w).
    { subst w. unfold NoAlloc.run. apply fold_left_invariant.
      - intros s c. apply static_step_errors_ok.
      - split; [known_message | left; reflexivity]. }
    destruct Hw as [Hg Ha]. destruct p; cbn; [assumption|].
    destruct Ha as [Hs | (s & Hs & Hin)]; rewrite Hs; [known_message|].
    exists s. split; [reflexivity | assumption].
Qed.

End ErrorSlot.

(** ** The single-claim guard of the static configuration *)

Section StaticClaim.
Context {P : Platform} {C : StaticConfig}.

Lemma static_init_result (w : NoAlloc.world) :
  snd (NoAlloc.arena_init w) = Arg_arena <-> NoAlloc._arena_static_used w = 0.
Proof.
  unfold NoAlloc.arena_init.
  destruct (Z.eqb_spec (NoAlloc._arena_static_used w) 0); cbn;
    split; intros; congruence.
Qed.

Lemma static_init_claims (w w1 : NoAlloc.world) :
  NoAlloc.arena_init w = (w1, Arg_arena) ->
  NoAlloc._arena_static_used w = 0 /\ NoAlloc._arena_static_used w1 = 1.
Proof.
  unfold NoAlloc.arena_init.
  destruct (Z.eqb_spec (NoAlloc._arena_static_used w) 0); cbn;
    intros [= <-]; split; auto.
Qed.

(** No compiled operation assigns [_arena_static_used] once it is 1. *)
Lemma static_step_keeps_claim (w : NoAlloc.world) (c : NoAlloc.call) :
  NoAlloc._arena_static_used w = 1 ->
  NoAlloc._arena_static_used (NoAlloc.step w c) = 1.
Proof.
  intros Hused.
  destruct c as [|p n|p n al|p|p|p|p]; cbn; try assumption.
  - unfold NoAlloc.arena_init. rewrite Hused. reflexivity.
  - destruct (arena_alloc _ _ n) as [[g' a'] r]. assumption.
  - destruct (arena_alloc_aligned _ _ n al) as [[g' a'] r]. assumption.
  - destruct (arena_reset _ _) as [g' a']. assumption.
Qed.

(** C9: once [arena_init()] has succeeded, the guard [_arena_static_used]
    is 1 after every sequence of calls of the compiled operations
    ([arena_init], [arena_alloc], [arena_alloc_aligned], [arena_reset],
    [arena_error], [arena_used], [arena_capacity], on [NULL] or on
    [&_arena_static]), and so [arena_init()] returns [NULL] there. *)
Theorem static_claim_is_permanent
  (w w1 : NoAlloc.world) (cs : list NoAlloc.call) :
  NoAlloc.arena_init w = (w1, Arg_arena) ->
  NoAlloc._arena_static_used (NoAlloc.run w1 cs) = 1
  /\ snd (NoAlloc.arena_init (NoAlloc.run w1 cs)) = Arg_null.
Proof.
  intros Hinit.
  destruct (static_init_claims w w1 Hinit) as [_ Hused1].
  assert (Hused : NoAlloc._arena_static_used (NoAlloc.run w1 cs) = 1).
  { unfold NoAlloc.run. apply fold_left_invariant.
    - apply static_step_keeps_claim.
    - assumption. }
  split; [assumption|].
  unfold NoAlloc.arena_init. rewrite Hused. reflexivity.
Qed.

(** C5, as the code has it: in every state in which the guard is set,
    whatever the cursor of the arena in use, [arena_init()] returns [NULL],
    records "static arena already used" in the error field of
    [_arena_static], the instance the first caller holds, and changes nothing
    else: the cursor, the capacity, the storage, the guard and the global
    slot are as they were.  A successful [arena_init()] happens only where
    the guard is clear and sets it, so that the next [arena_init()] is such
    a failing one; in any state [arena_init()] succeeds exactly when the
    guard is clear.  The code has no operation that clears it. *)
Theorem static_second_init_fails (w : NoAlloc.world) :
  NoAlloc._arena_static_used w <> 0 ->
  NoAlloc.arena_init w =
    ({| NoAlloc._arena_error_global := NoAlloc._arena_error_global w;
        NoAlloc._arena_static :=
          {| data := data (NoAlloc._arena_static w);
             capacity := capacity (NoAlloc._arena_static w);
             pos := pos (NoAlloc._arena_static w);
             error := Some "static arena already used"%string |};
        NoAlloc._arena_static_used := NoAlloc._arena_static_used w |},
     Arg_null)
  /\ arena_used (NoAlloc.deref (fst (NoAlloc.arena_init w)) Arg_arena)
     = arena_used (NoAlloc.deref w Arg_arena)
  /\ arena_error (NoAlloc._arena_error_global (fst (NoAlloc.arena_init w)))
       (NoAlloc.deref (fst (NoAlloc.arena_init w)) Arg_arena)
     = Some "static arena already used"%string
  /\ (forall w0 w1,
        NoAlloc.arena_init w0 = (w1, Arg_arena) ->
        NoAlloc._arena_static_used w0 = 0
        /\ NoAlloc._arena_static_used w1 = 1)
  /\ (forall w', snd (NoAlloc.arena_init w') = Arg_arena
                 <-> NoAlloc._arena_static_used w' = 0).
Proof.
  intros Hused.
  assert (Hfail : NoAlloc.arena_init w =
    ({| NoAlloc._arena_error_global := NoAlloc._arena_error_global w;
        NoAlloc._arena_static :=
          {| data := data (NoAlloc._arena_static w);
             capacity := capacity (NoAlloc._arena_static w);
             pos := pos (NoAlloc._arena_static w);
             error := Some "static arena already used"%string |};
        NoAlloc._arena_static_used := NoAlloc._arena_static_used w |},
     Arg_null)).
  { unfold NoAlloc.arena_init.
    destruct (Z.eqb_spec (NoAlloc._arena_static_used w) 0);
      [contradiction | reflexivity]. }
  split; [assumption|]. rewrite Hfail. cbn.
  split; [reflexivity|]. split; [reflexivity|]. split.
  - intros w0 w1 Hinit.
    apply (static_init_claims w0 w1 Hinit).
  - apply static_init_result.
Qed.

End StaticClaim.

(** ** Construction in the dynamic configuration *)

Section DynamicInit.
Context {P : Platform} {A : Allocator}.
Hypothesis P_ok : platform_ok.

(** What [arena_init(size)] does with a size [<= 0], which it does not
    examine: it fails exactly when [ARENA_MALLOC] returns [NULL],
    for the struct or for the storage of [(unsigned long)size] bytes;
    when both requests are served it returns an arena of capacity
    [(unsigned long)size], which is 0 for size 0 and
    [2 ^ ULONG_BITS + size] for a negative size, with offset 0 and
    "no error". *)
Theorem arena_init_nonpositive_size (g : option string) (size : Z) :
  is_int size -> size <= 0 ->
  (snd (Dynamic.arena_init g size) = NULL
   <-> ARENA_MALLOC SIZEOF_ARENA_T = NULL
       \/ ARENA_MALLOC (to_ulong size) = NULL)
  /\ (forall s d,
        ARENA_MALLOC SIZEOF_ARENA_T = Some s ->
        ARENA_MALLOC (to_ulong size) = Some d ->
        Dynamic.arena_init g size =
          (g,
           Some {| data := d;
                   capacity := if size =? 0 then 0
                               else 2 ^ ULONG_BITS + size;
                   pos := 0;
                   error := Some "no error"%string |})).
Proof.
  intros Hint Hsize.
  assert (Hcap : to_ulong size
                 = if size =? 0 then 0 else 2 ^ ULONG_BITS + size).
  { destruct (Z.eqb_spec size 0) as [->|Hne].
    - apply to_ulong_id. unfold ULONG_MAX.
      pose proof (ulong_modulus_pos P_ok). lia.
    - apply (to_ulong_negative P_ok); [assumption | lia]. }
  unfold Dynamic.arena_init. split.
  - destruct (ARENA_MALLOC SIZEOF_ARENA_T) as [s|];
      [destruct (ARENA_MALLOC (to_ulong size)) as [d|]|]; cbn;
      split; auto; try discriminate; intros [H|H]; discriminate.
  - intros s d -> Hd. rewrite Hd, Hcap. reflexivity.
Qed.

End DynamicInit.

(** ** Runs where an [unsigned long] sum wraps

    The comparisons [arena->pos + (unsigned long)size > arena->capacity] and
    [new_pos + (unsigned long)size > arena->capacity] are evaluated in
    [unsigned long] arithmetic.  The runs below are on platforms whose
    [int] and [unsigned long] both have 32 bits: [LLP64] for the arena built
    from the size [-1], [ILP32] for the arena of [INT_MAX] bytes. *)

(** C1: on the arena that [arena_init(-1)] built and three calls filled
    ([capacity - pos = 0 < 1]), [arena_alloc(a, 1)] does not fail: it returns
    [data + pos], the address one past the storage, and sets the cursor
    to 0. *)
Theorem alloc_serves_exhausted_arena :
  Dynamic.client_arena
    (Dynamic.run (P := LLP64) (A := huge_malloc) Dynamic.world_init fill_huge)
  = Some full_huge_arena
  /\ (capacity full_huge_arena - pos full_huge_arena <? 1) = true
  /\ arena_alloc (P := LLP64) (Some "no error"%string) (Some full_huge_arena) 1
     = (Some "no error"%string,
        Some {| data := 4294967296; capacity := 4294967295; pos := 0;
                error := Some "no error"%string |},
        Some 8589934591).
Proof.
  split; [|split].
  - vm_compute. reflexivity.
  - reflexivity.
  - vm_compute. reflexivity.
Qed.

(** C3: on the same arena the exact sum [pos + INT_MAX] exceeds the
    capacity, the [unsigned long] sum is [2147483646], and
    [arena_alloc(a, INT_MAX)] returns an address and records "no error"
    where the claim has "arena overflow". *)
Theorem alloc_capacity_check_wraps :
  (pos full_huge_arena + 2147483647 >? capacity full_huge_arena) = true
  /\ to_ulong (P := LLP64) (pos full_huge_arena + 2147483647) = 2147483646
  /\ arena_alloc (P := LLP64) (Some "no error"%string)
       (Some full_huge_arena) 2147483647
     = (Some "no error"%string,
        Some {| data := 4294967296; capacity := 4294967295;
                pos := 2147483646; error := Some "no error"%string |},
        Some 8589934591).
Proof.
  split; [|split].
  - reflexivity.
  - reflexivity.
  - vm_compute. reflexivity.
Qed.

(** C6: on the arena that [arena_init(INT_MAX)] built and
    [arena_alloc(a, INT_MAX)] filled, the aligned position for alignment 64
    is [pos + 49 = 2147483696], and [2147483696 + INT_MAX] exceeds the
    capacity; [arena_alloc_aligned(a, INT_MAX, 64)] does not fail: it returns
    [data + 2147483696] and moves the cursor to 47. *)
Theorem alloc_aligned_serves_exhausted_arena :
  Dynamic.client_arena
    (Dynamic.run (P := ILP32) (A := malloc32) Dynamic.world_init fill32)
  = Some full_arena32
  /\ (data full_arena32 + 2147483696) mod 64 = 0
  /\ (2147483696 + 2147483647 >? capacity full_arena32) = true
  /\ arena_alloc_aligned (P := ILP32) (Some "no error"%string)
       (Some full_arena32) 2147483647 64
     = (Some "no error"%string,
        Some {| data := 268435472; capacity := 2147483647; pos := 47;
                error := Some "no error"%string |},
        Some (268435472 + 2147483696)).
Proof.
  split; [|split; [|split]].
  - vm_compute. reflexivity.
  - reflexivity.
  - reflexivity.
  - vm_compute. reflexivity.
Qed.

(** C2: two successful calls of [arena_alloc_aligned].  On the filled
    arena of [INT_MAX] bytes, alignment 128 and size [INT_MAX]: the returned
    address is [data + 2147483760], and the cursor is set to 111, not to
    [2147483760 + INT_MAX].  On the filled arena built from size [-1],
    alignment 8 and size 1: the returned address is [data], which lies
    before [data + pos]. *)
Theorem alloc_aligned_cursor_wraps :
  arena_alloc_aligned (P := ILP32) (Some "no error"%string)
    (Some full_arena32) 2147483647 128
  = (Some "no error"%string,
     Some {| data := 268435472; capacity := 2147483647; pos := 111;
             error := Some "no error"%string |},
     Some (268435472 + 2147483760))
  /\ (111 <? 2147483760 + 2147483647) = true
  /\ arena_alloc_aligned (P := LLP64) (Some "no error"%string)
       (Some full_huge_arena) 1 8
     = (Some "no error"%string,
        Some {| data := 4294967296; capacity := 4294967295; pos := 1;
                error := Some "no error"%string |},
        Some 4294967296)
  /\ (4294967296 <? data full_huge_arena + pos full_huge_arena) = true.
Proof.
  split; [|split; [|split]].
  - vm_compute. reflexivity.
  - reflexivity.
  - vm_compute. reflexivity.
  - reflexivity.
Qed.

(** C7: after [arena_init(INT_MAX)] and [arena_alloc(a, INT_MAX)] the
    cursor is at [INT_MAX]; the next call,
    [arena_alloc_aligned(a, INT_MAX, 32)], which is no reset, leaves it
    at 15. *)
Theorem cursor_decreases_without_reset :
  option_map pos
    (Dynamic.client_arena
       (Dynamic.run (P := ILP32) (A := malloc32) Dynamic.world_init fill32))
  = Some 2147483647
  /\ option_map pos
       (Dynamic.client_arena
          (Dynamic.run (P := ILP32) (A := malloc32) Dynamic.world_init
             (fill32 ++ [Dynamic.Call_alloc_aligned Arg_arena 2147483647 32])))
     = Some 15.
Proof.
  split.
  - vm_compute. reflexivity.
  - vm_compute. reflexivity.
Qed.

(** ** Construction from a size that is not positive; the release that
    is not there *)

(** C4: [arena_init(0)] with an allocator that serves a zero-byte request
    does not fail, it returns an arena of capacity 0; and [arena_init(-1)]
    with an allocator that serves every request does not fail, it returns
    an arena of capacity [ULONG_MAX]: the allocator was asked for
    [(unsigned long)-1] bytes and never saw the sign. *)
Lemma arena_init_accepts_nonpositive_size :
  Dynamic.arena_init (P := LP64) (A := hosted_malloc) _arena_error_global_init 0
  = (Some "no error"%string,
     Some {| data := 8192; capacity := 0; pos := 0;
             error := Some "no error"%string |})
  /\ Dynamic.arena_init (P := LLP64) (A := huge_malloc)
       _arena_error_global_init (-1)
     = (Some "no error"%string,
        Some {| data := 4294967296; capacity := 4294967295; pos := 0;
                error := Some "no error"%string |}).
Proof.
  split.
  - vm_compute. reflexivity.
  - vm_compute. reflexivity.
Qed.

(** C5: in the configuration of [examples/arena.c], after the first
    [arena_init()] and any one further call among [static_calls] (a reset
    among them), [arena_init()] still returns [NULL]: none of the operations
    releases the arena. *)
Lemma no_operation_releases_static_arena :
  map (fun c =>
         snd (NoAlloc.arena_init
                (NoAlloc.step (P := LP64)
                   (fst (NoAlloc.arena_init
                           (NoAlloc.world_init (P := LP64)
                              (C := example_config))))
                   c)))
      static_calls
  = [Arg_null; Arg_null; Arg_null; Arg_null; Arg_null; Arg_null; Arg_null;
     Arg_null].
Proof.
  unfold static_calls. cbn [map].
  repeat (f_equal; [vm_compute; reflexivity|]). reflexivity.
Qed.

(** ** Instances of the theorems above *)

Lemma LP64_ok : platform_ok (P := LP64).
Proof. unfold platform_ok. cbn. lia. Qed.

Lemma ILP32_ok : platform_ok (P := ILP32).
Proof. unfold platform_ok. cbn. lia. Qed.

Ltac in_range :=
  cbn; unfold arena_ok, is_int, INT_MIN, INT_MAX, ULONG_MAX; cbn; lia.

(** In the configuration of [examples/arena.c]: the first [arena_init()],
    then [static_calls], then [arena_init()] again. *)
Lemma static_claim_is_permanent_witness :
  NoAlloc._arena_static_used
    (NoAlloc.run (P := LP64)
       (fst (NoAlloc.arena_init
               (NoAlloc.world_init (P := LP64) (C := example_config))))
       static_calls) = 1
  /\ snd (NoAlloc.arena_init
            (NoAlloc.run (P := LP64)
               (fst (NoAlloc.arena_init
                       (NoAlloc.world_init (P := LP64) (C := example_config))))
               static_calls)) = Arg_null.
Proof.
  apply (static_claim_is_permanent (P := LP64)
           (NoAlloc.world_init (P := LP64) (C := example_config))).
  reflexivity.
Defined.

(** The configuration of [examples/arena.c] after [arena_init()] and
    [arena_alloc(a, 128)]: the cursor is at 128 when [arena_init()] is
    called again. *)
Lemma static_second_init_fails_witness :
  let w := NoAlloc.run (P := LP64)
             (NoAlloc.world_init (P := LP64) (C := example_config))
             [NoAlloc.Call_init; NoAlloc.Call_alloc Arg_arena 128] in
  NoAlloc.arena_init w =
    ({| NoAlloc._arena_error_global := NoAlloc._arena_error_global w;
        NoAlloc._arena_static :=
          {| data := data (NoAlloc._arena_static w);
             capacity := capacity (NoAlloc._arena_static w);
             pos := pos (NoAlloc._arena_static w);
             error := Some "static arena already used"%string |};
        NoAlloc._arena_static_used := NoAlloc._arena_static_used w |},
     Arg_null)
  /\ arena_used (NoAlloc.deref (fst (NoAlloc.arena_init w)) Arg_arena)
     = arena_used (NoAlloc.deref w Arg_arena)
  /\ arena_error (NoAlloc._arena_error_global (fst (NoAlloc.arena_init w)))
       (NoAlloc.deref (fst (NoAlloc.arena_init w)) Arg_arena)
     = Some "static arena already used"%string
  /\ (forall w0 w1,
        NoAlloc.arena_init w0 = (w1, Arg_arena) ->
        NoAlloc._arena_static_used w0 = 0
        /\ NoAlloc._arena_static_used w1 = 1)
  /\ (forall w', snd (NoAlloc.arena_init w') = Arg_arena
                 <-> NoAlloc._arena_static_used w' = 0).
Proof.
  apply (static_second_init_fails
           (NoAlloc.run (P := LP64)
              (NoAlloc.world_init (P := LP64) (C := example_config))
              [NoAlloc.Call_init; NoAlloc.Call_alloc Arg_arena 128])).
  discriminate.
Defined.

(** [arena_init(0)] with [hosted_malloc]. *)
Lemma arena_init_nonpositive_size_witness :
  (snd (Dynamic.arena_init (P := LP64) (A := hosted_malloc)
          _arena_error_global_init 0) = NULL
   <-> ARENA_MALLOC (Allocator := hosted_malloc) 32 = NULL
       \/ ARENA_MALLOC (Allocator := hosted_malloc) (to_ulong (P := LP64) 0)
          = NULL)
  /\ (forall s d,
        ARENA_MALLOC (Allocator := hosted_malloc) 32 = Some s ->
        ARENA_MALLOC (Allocator := hosted_malloc) (to_ulong (P := LP64) 0)
        = Some d ->
        Dynamic.arena_init (P := LP64) (A := hosted_malloc)
          _arena_error_global_init 0 =
          (_arena_error_global_init,
           Some {| data := d; capacity := 0; pos := 0;
                   error := Some "no error"%string |})).
Proof.
  apply (arena_init_nonpositive_size (P := LP64) (A := hosted_malloc) LP64_ok
           _arena_error_global_init 0).
  - in_range.
  - lia.
Defined.

(** Capacity 100, 60 bytes in use: [arena_alloc(a, 40)] fits. *)
Lemma arena_alloc_fits_witness :
  arena_alloc (P := LP64) (Some "no error"%string) (Some scenario_arena) 40 =
    (Some "no error"%string,
     Some {| data := data scenario_arena; capacity := capacity scenario_arena;
             pos := pos scenario_arena + 40;
             error := Some "no error"%string |},
     Some (data scenario_arena + pos scenario_arena)).
Proof.
  apply (arena_alloc_fits (P := LP64) LP64_ok); in_range.
Defined.

(** Capacity 100, 60 bytes in use: [arena_alloc(a, 50)] is refused. *)
Lemma arena_alloc_rejects_witness :
  arena_alloc (P := LP64) (Some "no error"%string) (Some scenario_arena) 50 =
    (Some "no error"%string,
     Some (set_error scenario_arena "arena overflow"%string), NULL).
Proof.
  apply (arena_alloc_rejects (P := LP64) LP64_ok); in_range.
Defined.

(** The filled arena of [INT_MAX] bytes with 32-bit [unsigned long]. *)
Lemma arena_alloc_exact_check_witness :
  snd (arena_alloc (P := ILP32) (Some "no error"%string)
         (Some full_arena32) 2147483647) = NULL
  <-> pos full_arena32 + 2147483647 > capacity full_arena32.
Proof.
  apply (arena_alloc_exact_check (P := ILP32) ILP32_ok); in_range.
Defined.

(** Storage at the odd address 8193, cursor at 1: alignment 8 gives the
    address 8200. *)
Lemma arena_alloc_aligned_is_aligned_witness : 8200 mod 8 = 0.
Proof.
  apply (arena_alloc_aligned_is_aligned (P := LP64) LP64_ok
           (Some "no error"%string) unaligned_arena 4 8
           (Some "no error"%string)
           (Some {| data := 8193; capacity := 16; pos := 11;
                    error := Some "no error"%string |})).
  - in_range.
  - in_range.
  - reflexivity.
Defined.

Lemma arena_alloc_aligned_spec_witness :
  exists offset',
    (pos unaligned_arena <= offset' < pos unaligned_arena + 8
     /\ (data unaligned_arena + offset') mod 8 = 0
     /\ forall y, data unaligned_arena + pos unaligned_arena <= y ->
                  y mod 8 = 0 -> data unaligned_arena + offset' <= y)
    /\ (offset' + 4 <= ULONG_MAX (P := LP64) ->
        arena_alloc_aligned (P := LP64) (Some "no error"%string)
          (Some unaligned_arena) 4 8 =
          if offset' + 4 <=? capacity unaligned_arena then
            (Some "no error"%string,
             Some {| data := data unaligned_arena;
                     capacity := capacity unaligned_arena;
                     pos := offset' + 4; error := Some "no error"%string |},
             Some (data unaligned_arena + offset'))
          else
            (Some "no error"%string,
             Some (set_error unaligned_arena
                     "arena overflow (aligned)"%string), NULL)).
Proof.
  apply (arena_alloc_aligned_spec (P := LP64) LP64_ok); in_range.
Defined.

(** An arena of 4096 bytes from [hosted_malloc] after
    [arena_alloc(a, 128)], and a reset of it. *)
Lemma live_arena_ok_witness :
  let a := {| data := 8192; capacity := 4096; pos := 128;
              error := Some "no error"%string |} in
  arena_ok (P := LP64) a
  /\ arena_ok (P := LP64) (apply_op (P := LP64) a Op_reset)
  /\ capacity (apply_op (P := LP64) a Op_reset) = capacity a
  /\ data (apply_op (P := LP64) a Op_reset) = data a.
Proof.
  apply (live_arena_ok (P := LP64) LP64_ok).
  exists {| data := 8192; capacity := 4096; pos := 0;
            error := Some "no error"%string |}, [Op_alloc 128].
  split; [|split].
  - apply (constructed_dynamic hosted_malloc _arena_error_global_init 4096
             _arena_error_global_init).
    + in_range.
    + reflexivity.
  - constructor; [in_range | constructor].
  - reflexivity.
Defined.

(** An arena of [INT_MAX] bytes on a platform with a 64-bit
    [unsigned long], half in use, and an aligned allocation. *)
Lemma cursor_monotone_witness :
  let a := {| data := 8192; capacity := 2147483647; pos := 1073741824;
              error := Some "no error"%string |} in
  pos a <= pos (apply_op (P := LP64) a (Op_alloc_aligned 1000 64)).
Proof.
  apply (cursor_monotone (P := LP64) LP64_ok).
  - in_range.
  - in_range.
  - discriminate.
  - in_range.
Defined.

(** Alignment 3 is refused. *)
Lemma arena_alloc_aligned_alignment_check_witness :
  arena_alloc_aligned (P := LP64) (Some "no error"%string)
    (Some unaligned_arena) 4 3
  = (Some "no error"%string,
     Some (set_error unaligned_arena "alignment must be power of two"%string),
     NULL)
  <-> ~ (exists k, 0 <= k /\ 3 = 2 ^ k).
Proof.
  apply (arena_alloc_aligned_alignment_check (P := LP64)). lia.
Defined.

(** ** Layout of the allocations between two resets *)

Lemma laid_out_bounds (rs : list (Z * Z)) : forall lo hi,
  laid_out lo rs hi ->
  lo <= hi
  /\ Forall (fun r => lo <= fst r /\ 0 < snd r /\ fst r + snd r <= hi) rs.
Proof.
  induction rs as [|[p n] rs IH]; cbn; intros lo hi H.
  - split; [assumption | constructor].
  - destruct H as (Hlo & Hn & Hrest).
    destruct (IH _ _ Hrest) as [Hle Hall].
    split; [lia|]. constructor; [cbn; lia|].
    eapply Forall_impl; [|exact Hall]. cbn. intros r ?. lia.
Qed.

Lemma laid_out_ordered (rs : list (Z * Z)) : forall lo hi,
  laid_out lo rs hi -> ForallOrdPairs precedes rs.
Proof.
  induction rs as [|[p n] rs IH]; cbn; intros lo hi H.
  - constructor.
  - destruct H as (Hlo & Hn & Hrest). constructor.
    + destruct (laid_out_bounds _ _ _ Hrest) as [_ Hall].
      eapply Forall_impl; [|exact Hall]. unfold precedes. cbn. intros r ?. lia.
    + eapply IH, Hrest.
Qed.

Section Layout.
Context {P : Platform}.
Hypothesis P_ok : platform_ok.

(** One allocation call: an address it returns starts at or after the
    cursor and its range ends at the new cursor; a refused call leaves the
    cursor alone. *)
Lemma op_step_layout (a : arena_t) (o : op) :
  arena_ok a -> op_args_ok o -> o <> Op_reset ->
  capacity a + 2 * INT_MAX <= ULONG_MAX ->
  match op_result a o with
  | Some p =>
      data a + pos a <= p /\ 0 < op_size o
      /\ p + op_size o = data a + pos (apply_op a o)
  | None => pos (apply_op a o) = pos a
  end.
Proof.
  intros (Hp0 & Hpc & Hc) Hargs Hop Hroom.
  pose proof (INT_MAX_pos P_ok) as Hmax.
  destruct o as [n|n al|]; [| |congruence]; unfold op_result, apply_op, op_size.
  - cbn in Hargs.
    destruct (Z_le_gt_dec n 0) as [Hn|Hn].
    + unfold arena_alloc. destruct (Z.leb_spec n 0); [reflexivity|lia].
    + rewrite (arena_alloc_checked P_ok) by (assumption || lia).
      destruct (_ >? _); cbn; [reflexivity|].
      rewrite to_ulong_id by (destruct Hargs; lia). lia.
  - destruct Hargs as [Hn Hal].
    destruct (Z_le_gt_dec n 0) as [Hn0|Hn0];
      [unfold arena_alloc_aligned; destruct (Z.leb_spec n 0);
         [reflexivity|lia]|].
    destruct (Z_le_gt_dec al 0) as [Hal0|Hal0].
    { unfold arena_alloc_aligned. destruct (Z.leb_spec n 0); [lia|].
      destruct (Z.leb_spec al 0); [reflexivity|lia]. }
    destruct (Z.eq_dec (Z.land al (al - 1)) 0) as [Hland|Hland].
    + rewrite (arena_alloc_aligned_checked P_ok) by (assumption || lia).
      cbv zeta.
      pose proof (Z.mod_pos_bound (al - (data a + pos a) mod al) al
                    ltac:(lia)) as Hpad.
      destruct Hn, Hal.
      rewrite (to_ulong_id (pos a + _)) by lia.
      destruct (_ >? _); cbn; [reflexivity|].
      rewrite to_ulong_id by lia. lia.
    + unfold arena_alloc_aligned. destruct (Z.leb_spec n 0); [lia|].
      destruct (Z.leb_spec al 0); [lia|].
      destruct (Z.eqb_spec (Z.land al (al - 1)) 0); [contradiction|].
      reflexivity.
Qed.

Lemma allocations_laid_out (ops : list op) : forall a,
  arena_ok a -> Forall op_args_ok ops -> Forall (fun o => o <> Op_reset) ops ->
  capacity a + 2 * INT_MAX <= ULONG_MAX ->
  laid_out (data a + pos a) (allocations a ops)
    (data a + pos (fold_left apply_op ops a)).
Proof.
  induction ops as [|o ops IH]; intros a Hok Hargs Hops Hroom; cbn.
  - lia.
  - inversion Hargs as [|? ? Harg Hargs']; subst.
    inversion Hops as [|? ? Hop Hops']; subst.
    destruct (apply_op_frame P_ok a o Hok) as (Hok1 & Hcap & Hdata).
    pose proof (op_step_layout a o Hok Harg Hop Hroom) as Hstep.
    assert (IH1 := IH (apply_op a o) Hok1 Hargs' Hops' ltac:(lia)).
    rewrite Hdata in IH1.
    destruct (op_result a o) as [p|].
    + destruct Hstep as (Hlo & Hn & Hend). cbn.
      rewrite Hend. auto.
    + rewrite Hstep in IH1. exact IH1.
Qed.

(** X11: the addresses returned by any sequence of [arena_alloc] and
    [arena_alloc_aligned] calls with no reset in between, on an arena whose
    capacity leaves room for the largest padding and size
    ([capacity + 2 * INT_MAX <= ULONG_MAX]): every returned range lies in
    the storage, at or after the cursor the sequence started from, and any
    two of them are disjoint, the earlier one below the later one. *)
Theorem allocations_disjoint (a : arena_t) (ops : list op) :
  arena_ok a -> Forall op_args_ok ops -> Forall (fun o => o <> Op_reset) ops ->
  capacity a + 2 * INT_MAX <= ULONG_MAX ->
  Forall (fun r => data a + pos a <= fst r /\ 0 < snd r
                   /\ fst r + snd r <= data a + capacity a)
    (allocations a ops)
  /\ ForallOrdPairs precedes (allocations a ops).
Proof.
  intros Hok Hargs Hops Hroom.
  pose proof (allocations_laid_out ops a Hok Hargs Hops Hroom) as Hlaid.
  assert (Hend : arena_ok (fold_left apply_op ops a)
                 /\ capacity (fold_left apply_op ops a) = capacity a).
  { apply (fold_left_invariant apply_op
             (fun s => arena_ok s /\ capacity s = capacity a)).
    - intros s c [Hs Hcap].
      destruct (apply_op_frame P_ok s c Hs) as (? & ? & ?).
      split; [assumption | congruence].
    - split; [assumption | reflexivity]. }
  destruct Hend as [(_ & Hle & _) Hcap].
  split.
  - destruct (laid_out_bounds _ _ _ Hlaid) as [_ Hall].
    eapply Forall_impl; [|exact Hall]. cbn. intros r ?. lia.
  - eapply laid_out_ordered, Hlaid.
Qed.

End Layout.

(** ** Reset returns the arena to its constructed state *)

Section Replay.
Context {P : Platform}.

Lemma apply_op_storage (a : arena_t) (o : op) :
  data (apply_op a o) = data a /\ capacity (apply_op a o) = capacity a.
Proof.
  unfold apply_op. destruct o as [n|n al|]; cbn.
  - destruct (n <=? 0); cbn; [auto|]. destruct (_ >? _); cbn; auto.
  - destruct (n <=? 0); cbn; [auto|].
    destruct (_ || _); cbn; [auto|]. destruct (_ >? _); cbn; auto.
  - auto.
Qed.

Lemma run_storage (ops : list op) (a : arena_t) :
  data (fold_left apply_op ops a) = data a
  /\ capacity (fold_left apply_op ops a) = capacity a.
Proof.
  apply (fold_left_invariant apply_op
           (fun s => data s = data a /\ capacity s = capacity a));
    [|auto].
  intros s c [Hd Hc]. destruct (apply_op_storage s c) as [Hd' Hc'].
  split; congruence.
Qed.

(** Either constructor returns the arena with the cursor at 0 and
    "no error". *)
Lemma constructed_fresh (a : arena_t) :
  constructed a -> pos a = 0 /\ error a = Some "no error"%string.
Proof.
  intros [A g size g' a0 Hsize Hinit | C cs w' Hinit].
  - unfold Dynamic.arena_init in Hinit.
    destruct (ARENA_MALLOC SIZEOF_ARENA_T); [|discriminate].
    destruct (ARENA_MALLOC (to_ulong size)); [|discriminate].
    injection Hinit as _ <-. auto.
  - unfold NoAlloc.arena_init in Hinit.
    destruct (negb _); [discriminate|].
    injection Hinit as <-. auto.
Qed.

(** X12: whatever calls were made on an arena since its construction,
    [arena_reset] leaves exactly the state the construction returned; hence
    any sequence of calls after the reset returns the same addresses as the
    same sequence on the newly constructed arena. *)
Theorem reset_restores_constructed (a0 : arena_t) (ops : list op)
  (g : option string) :
  constructed a0 ->
  arena_reset g (Some (fold_left apply_op ops a0)) = (g, Some a0)
  /\ forall ops',
       allocations (apply_op (fold_left apply_op ops a0) Op_reset) ops'
       = allocations a0 ops'.
Proof.
  intros Hcons.
  destruct (constructed_fresh a0 Hcons) as [Hpos Herr].
  destruct (run_storage ops a0) as [Hd Hc].
  assert (Hreset : {| data := data (fold_left apply_op ops a0);
                      capacity := capacity (fold_left apply_op ops a0);
                      pos := 0; error := Some "no error"%string |} = a0).
  { rewrite Hd, Hc. destruct a0 as [d c p e]. cbn in *. subst. reflexivity. }
  split.
  - unfold arena_reset. rewrite Hreset. reflexivity.
  - intros ops'. unfold apply_op at 1. cbn. rewrite Hreset. reflexivity.
Qed.

End Replay.

(** ** Aligned allocation at an aligned cursor *)

Section NoPadding.
Context {P : Platform}.
Hypothesis P_ok : platform_ok.

(** X14: where the address of the cursor is already a multiple of the
    alignment (always so for alignment 1), [arena_alloc_aligned] returns
    what [arena_alloc] returns for the same size and leaves the same cursor
    and global slot; only the message of a refusal differs. *)
Theorem arena_alloc_aligned_no_padding
  (g : option string) (a : arena_t) (n al : Z) :
  arena_ok a -> is_int n -> 0 < n ->
  is_int al -> 0 < al -> Z.land al (al - 1) = 0 ->
  (data a + pos a) mod al = 0 ->
  snd (arena_alloc_aligned g (Some a) n al) = snd (arena_alloc g (Some a) n)
  /\ option_map pos (snd (fst (arena_alloc_aligned g (Some a) n al)))
     = option_map pos (snd (fst (arena_alloc g (Some a) n)))
  /\ fst (fst (arena_alloc_aligned g (Some a) n al))
     = fst (fst (arena_alloc g (Some a) n)).
Proof.
  intros (Hp0 & Hpc & Hc) Hn Hn0 Hal Hal0 Hland Hmod.
  rewrite (arena_alloc_aligned_checked P_ok), (arena_alloc_checked P_ok)
    by assumption.
  cbv zeta. rewrite Hmod, Z.sub_0_r, Z.mod_same, Z.add_0_r by lia.
  rewrite (to_ulong_id (pos a)) by lia.
  destruct (_ >? _); cbn; auto.
Qed.

End NoPadding.

(** ** Construction from a positive size; the accessors *)

Section DynamicUse.
Context {P : Platform} {A : Allocator}.
Hypothesis P_ok : platform_ok.

(** X15: [arena_init(size)] for a positive [int] size.  If it returns an
    arena, [ARENA_MALLOC] was asked for exactly [size] bytes and returned
    the arena's storage; the capacity is [size], the cursor 0, the error
    "no error", the global slot untouched, and the capacity is small enough
    for the comparison of [arena_alloc] to be exact.  If it returns [NULL],
    the request for the struct failed ("out of memory (arena struct)") or
    else the request for the storage did ("out of memory (arena data)"),
    and the global slot holds that message. *)
Theorem arena_init_positive_size
  (g : option string) (size : Z) (g' : option string) (r : option arena_t) :
  is_int size -> 0 < size ->
  Dynamic.arena_init g size = (g', r) ->
  match r with
  | Some a =>
      g' = g
      /\ ARENA_MALLOC size = Some (data a)
      /\ capacity a = size /\ pos a = 0
      /\ error a = Some "no error"%string
      /\ arena_ok a
      /\ capacity a <= ULONG_MAX - INT_MAX
  | None =>
      (ARENA_MALLOC SIZEOF_ARENA_T = NULL
       /\ arena_error g' NULL = Some "out of memory (arena struct)"%string)
      \/ (ARENA_MALLOC SIZEOF_ARENA_T <> NULL
          /\ ARENA_MALLOC size = NULL
          /\ arena_error g' NULL = Some "out of memory (arena data)"%string)
  end.
Proof.
  intros Hint Hsize. unfold Dynamic.arena_init.
  rewrite (to_ulong_int P_ok size) by (assumption || lia).
  pose proof (twice_INT_MAX P_ok) as Htwice.
  destruct (ARENA_MALLOC SIZEOF_ARENA_T) as [s|].
  - destruct (ARENA_MALLOC size) as [d|] eqn:Hd; intros [= <- <-].
    + cbn. unfold arena_ok. cbn. destruct Hint.
      repeat split; reflexivity || lia.
    + right. split; [discriminate|]. split; reflexivity.
  - intros [= <- <-]. left. split; reflexivity.
Qed.

(** X16: for an arena from [arena_init(size)] with an [int] size [>= 0],
    after any sequence of allocations and resets [arena_capacity] still
    returns [size] and [0 <= arena_used <= size]; on [NULL] both accessors
    return 0. *)
Theorem accessors_along_trace
  (g : option string) (size : Z) (g' : option string) (a0 : arena_t)
  (ops : list op) :
  is_int size -> 0 <= size ->
  Dynamic.arena_init g size = (g', Some a0) ->
  arena_capacity (Some (fold_left apply_op ops a0)) = size
  /\ 0 <= arena_used (Some (fold_left apply_op ops a0)) <= size
  /\ arena_used NULL = 0 /\ arena_capacity NULL = 0.
Proof.
  intros Hint Hsize Hinit.
  assert (Hcons : constructed a0)
    by (eapply constructed_dynamic; eassumption).
  assert (Hcap0 : capacity a0 = size).
  { unfold Dynamic.arena_init in Hinit.
    destruct (ARENA_MALLOC SIZEOF_ARENA_T); [|discriminate].
    destruct (ARENA_MALLOC (to_ulong size)); [|discriminate].
    injection Hinit as _ <-. cbn. apply (to_ulong_int P_ok); assumption. }
  assert (Hok : arena_ok (fold_left apply_op ops a0)).
  { apply fold_left_invariant.
    - intros s c Hs. apply (apply_op_frame P_ok), Hs.
    - apply (constructed_ok P_ok), Hcons. }
  destruct (run_storage ops a0) as [_ Hcap].
  destruct Hok as (H0 & Hle & _). cbn.
  rewrite Hcap, Hcap0 in *. repeat split; assumption || reflexivity.
Qed.

End DynamicUse.

(** ** The static arena and the global error slot *)

Section StaticUse.
Context {P : Platform} {C : StaticConfig}.
Hypothesis P_ok : platform_ok.

Lemma static_step_ok (w : NoAlloc.world) (c : NoAlloc.call) :
  arena_ok (NoAlloc._arena_static w) ->
  arena_ok (NoAlloc._arena_static (NoAlloc.step w c)).
Proof.
  intros (Hp0 & Hpc & Hc). unfold arena_ok.
  destruct c as [|p n|p n al|p|p|p|p]; cbn; try (repeat split; assumption).
  - unfold NoAlloc.arena_init. destruct (negb _); cbn; lia.
  - destruct p; cbn; [lia|].
    destruct (n <=? 0); cbn; [lia|].
    match goal with |- context [to_ulong ?s >? _] =>
      destruct (Z.gtb_spec (to_ulong s) (capacity (NoAlloc._arena_static w)));
        cbn; [lia | pose proof (to_ulong_range P_ok s); lia]
    end.
  - destruct p; cbn; [lia|].
    destruct (n <=? 0); cbn; [lia|].
    destruct (_ || _); cbn; [lia|].
    match goal with |- context [to_ulong ?s >? _] =>
      destruct (Z.gtb_spec (to_ulong s) (capacity (NoAlloc._arena_static w)));
        cbn; [lia | pose proof (to_ulong_range P_ok s); lia]
    end.
  - destruct p; cbn; lia.
Qed.

(** X17: in every state the static configuration reaches, before a
    successful [arena_init()] as well as after it, [arena_capacity] of
    [_arena_static] is [ARENA_SIZE] (as an [unsigned long]) and
    [0 <= arena_used <= arena_capacity]. *)
Theorem static_accessors (cs : list NoAlloc.call) :
  arena_capacity (NoAlloc.deref (NoAlloc.run NoAlloc.world_init cs) Arg_arena)
  = to_ulong ARENA_SIZE
  /\ 0 <= arena_used
            (NoAlloc.deref (NoAlloc.run NoAlloc.world_init cs) Arg_arena)
     <= to_ulong ARENA_SIZE.
Proof.
  pose proof (static_capacity_frame cs) as Hcap.
  assert (Hok : arena_ok
                  (NoAlloc._arena_static (NoAlloc.run NoAlloc.world_init cs))).
  { unfold NoAlloc.run.
    apply (fold_left_invariant NoAlloc.step
             (fun w => arena_ok (NoAlloc._arena_static w))).
    - intros s c. apply static_step_ok.
    - unfold arena_ok. cbn. pose proof (to_ulong_range P_ok ARENA_SIZE). lia. }
  destruct Hok as (H0 & Hle & _). cbn. rewrite Hcap in *.
  repeat split; assumption.
Qed.

End StaticUse.

Section StaticGlobal.
Context {P : Platform} {C : StaticConfig}.

Lemma static_step_global (w : NoAlloc.world) (c : NoAlloc.call) :
  allocates_on_null c = false ->
  NoAlloc._arena_error_global (NoAlloc.step w c)
  = NoAlloc._arena_error_global w.
Proof.
  intros Hc.
  destruct c as [|p n|p n al|p|p|p|p]; cbn; try reflexivity.
  - unfold NoAlloc.arena_init. destruct (negb _); reflexivity.
  - destruct p; [discriminate|]. cbn.
    destruct (n <=? 0); [reflexivity|]. destruct (_ >? _); reflexivity.
  - destruct p; [discriminate|]. cbn.
    destruct (n <=? 0); [reflexivity|].
    destruct (_ || _); [reflexivity|]. destruct (_ >? _); reflexivity.
  - destruct p; reflexivity.
Qed.

Lemma static_run_global (cs : list NoAlloc.call) : forall w,
  Forall (fun c => allocates_on_null c = false) cs ->
  NoAlloc._arena_error_global (NoAlloc.run w cs)
  = NoAlloc._arena_error_global w.
Proof.
  unfold NoAlloc.run.
  induction cs as [|c cs IH]; intros w Hcs; cbn; [reflexivity|].
  inversion Hcs as [|? ? Hc Hcs']; subst.
  rewrite IH by assumption. apply static_step_global, Hc.
Qed.

(** X18: in the static configuration nothing but an allocation call on
    [NULL] writes the global error slot.  After any sequence of calls that
    passes [NULL] to no allocation function, [arena_error(NULL)] returns
    "no error", also when [arena_init()] calls in the sequence failed: a
    failed [arena_init()] is recorded in [_arena_static.error] only. *)
Theorem static_init_failure_not_in_global (cs : list NoAlloc.call) :
  Forall (fun c => allocates_on_null c = false) cs ->
  arena_error
    (NoAlloc._arena_error_global (NoAlloc.run NoAlloc.world_init cs)) NULL
  = Some "no error"%string.
Proof.
  intros Hcs. cbn. rewrite static_run_global by assumption. reflexivity.
Qed.

End StaticGlobal.

(** ** The global error slot of the dynamic configuration *)

Section DynamicGlobal.
Context {P : Platform} {A : Allocator}.

(** X19: in the dynamic configuration, a call that finds a message other
    than "no error" in the global slot and leaves "no error" there is
    [arena_destroy] on the arena the client holds: no successful
    [arena_init], allocation or reset clears a message that an earlier
    failure left in the global slot. *)
Theorem only_destroy_clears_global (w : Dynamic.world) (c : Dynamic.call) :
  Dynamic._arena_error_global w <> Some "no error"%string ->
  Dynamic._arena_error_global (Dynamic.step w c) = Some "no error"%string ->
  exists a, c = Dynamic.Call_destroy Arg_arena
            /\ Dynamic.client_arena w = Some a.
Proof.
  intros Hstale.
  destruct c as [n|p n|p n al|p|p|p]; cbn.
  - unfold Dynamic.arena_init.
    destruct (ARENA_MALLOC SIZEOF_ARENA_T);
      [destruct (ARENA_MALLOC (to_ulong n))|]; cbn;
      intros H; congruence || discriminate.
  - destruct p; cbn; [discriminate|].
    destruct (Dynamic.client_arena w); cbn; [|discriminate].
    destruct (n <=? 0); [|destruct (_ >? _)]; cbn; intros H; congruence.
  - destruct p; cbn; [discriminate|].
    destruct (Dynamic.client_arena w); cbn; [|discriminate].
    destruct (n <=? 0); [|destruct (_ || _); [|destruct (_ >? _)]];
      cbn; intros H; congruence.
  - destruct p; cbn; [congruence|].
    destruct (Dynamic.client_arena w); cbn; intros H; congruence.
  - destruct p; cbn; [congruence|].
    destruct (Dynamic.client_arena w) as [a|]; cbn; intros H;
      [exists a; auto | congruence].
  - congruence.
Qed.

End DynamicGlobal.

(** ** The program of [examples/arena.c] *)

Section ExampleProgram.
Context {P : Platform}.
Hypothesis P_ok : platform_ok.

Lemma ULONG_MAX_lower : 4294967295 <= ULONG_MAX.
Proof.
  unfold ULONG_MAX. destruct P_ok as (_ & _ & ?).
  assert (2 ^ 32 <= 2 ^ ULONG_BITS) by (apply Z.pow_le_mono_r; lia).
  change (2 ^ 32) with 4294967296 in *. lia.
Qed.

(** X20: started with the file-scope variables at their initializers,
    [main] of [examples/arena.c] returns 0 and prints the address of
    [_arena_static_data] itself; it leaves the static arena claimed, with
    128 of its 1024 bytes in use. *)
Theorem example_main_runs (static_data : Z) :
  exists w,
    Example.main (NoAlloc.world_init (C := Example.config static_data))
    = (w, 0, Example.Allocated_128_bytes_at static_data)
    /\ arena_used (Some (NoAlloc._arena_static w)) = 128
    /\ arena_capacity (Some (NoAlloc._arena_static w)) = 1024
    /\ NoAlloc._arena_static_used w = 1
    /\ arena_error (NoAlloc._arena_error_global w)
         (Some (NoAlloc._arena_static w)) = Some "no error"%string.
Proof.
  pose proof ULONG_MAX_lower as Hmax.
  assert (H1024 : to_ulong 1024 = 1024) by (apply to_ulong_id; lia).
  assert (H128 : to_ulong 128 = 128) by (apply to_ulong_id; lia).
  unfold Example.main, NoAlloc.arena_init, NoAlloc.world_init. cbn.
  unfold arena_alloc. cbn. rewrite H128, H1024. cbn. rewrite H128. cbn.
  eexists. split; [rewrite Z.add_0_r; reflexivity|].
  cbn. repeat split; reflexivity.
Qed.

End ExampleProgram.

(** X21: where the static arena is already claimed, [main] of
    [examples/arena.c] returns 1 and prints, as the reason, the content of
    the global error slot, which [arena_init()] has not written; the message
    "static arena already used" that the failed [arena_init()] recorded in
    [_arena_static.error] is not what it prints. *)
Theorem example_main_init_error {P : Platform} (w : NoAlloc.world) :
  NoAlloc._arena_static_used w <> 0 ->
  Example.main w
  = (fst (NoAlloc.arena_init w), 1,
     Example.Arena_init_error (NoAlloc._arena_error_global w))
  /\ error (NoAlloc._arena_static (fst (NoAlloc.arena_init w)))
     = Some "static arena already used"%string.
Proof.
  intros Hused. unfold Example.main, NoAlloc.arena_init.
  destruct (Z.eqb_spec (NoAlloc._arena_static_used w) 0); [contradiction|].
  cbn. split; reflexivity.
Qed.

(** ** The lock hooks *)

Section Hooks.
Context {P : Platform}.

(** X22: each traced function returns what the function it traces
    returns; and on every path of every operation the hooks are called in
    matching pairs: [ARENA_LOCK()] is never called while the lock is held,
    [ARENA_UNLOCK()] only while it is held, and the operation returns with
    the lock released. *)
Theorem hooks_well_bracketed {A : Allocator}
  (g : option string) (arena : option arena_t) (size alignment : Z)
  (w : NoAlloc.world) :
  (fst (arena_alloc_traced g arena size) = arena_alloc g arena size
   /\ well_bracketed false (snd (arena_alloc_traced g arena size)) = true)
  /\ (fst (arena_alloc_aligned_traced g arena size alignment)
      = arena_alloc_aligned g arena size alignment
      /\ well_bracketed false
           (snd (arena_alloc_aligned_traced g arena size alignment)) = true)
  /\ (fst (arena_reset_traced g arena) = arena_reset g arena
      /\ well_bracketed false (snd (arena_reset_traced g arena)) = true)
  /\ (fst (arena_init_traced g size) = Dynamic.arena_init g size
      /\ well_bracketed false (snd (arena_init_traced g size)) = true)
  /\ (fst (arena_destroy_traced g arena) = Dynamic.arena_destroy g arena
      /\ well_bracketed false (snd (arena_destroy_traced g arena)) = true)
  /\ (fst (static_arena_init_traced w) = NoAlloc.arena_init w
      /\ well_bracketed false (snd (static_arena_init_traced w)) = true).
Proof.
  repeat split.
  - unfold arena_alloc_traced, arena_alloc.
    destruct arena; [destruct (size <=? 0); [|destruct (_ >? _)]|];
      reflexivity.
  - unfold arena_alloc_traced.
    destruct arena; [destruct (size <=? 0); [|destruct (_ >? _)]|];
      reflexivity.
  - unfold arena_alloc_aligned_traced, arena_alloc_aligned. cbv zeta.
    destruct arena;
      [destruct (size <=? 0); [|destruct (_ || _); [|destruct (_ >? _)]]|];
      reflexivity.
  - unfold arena_alloc_aligned_traced. cbv zeta.
    destruct arena;
      [destruct (size <=? 0); [|destruct (_ || _); [|destruct (_ >? _)]]|];
      reflexivity.
  - destruct arena; reflexivity.
  - destruct arena; reflexivity.
  - unfold arena_init_traced, Dynamic.arena_init.
    destruct (ARENA_MALLOC SIZEOF_ARENA_T);
      [destruct (ARENA_MALLOC (to_ulong size))|]; reflexivity.
  - unfold arena_init_traced.
    destruct (ARENA_MALLOC SIZEOF_ARENA_T);
      [destruct (ARENA_MALLOC (to_ulong size))|]; reflexivity.
  - destruct arena; reflexivity.
  - destruct arena; reflexivity.
  - unfold static_arena_init_traced, NoAlloc.arena_init.
    destruct (negb _); reflexivity.
  - unfold static_arena_init_traced. destruct (negb _); reflexivity.
Qed.

(** X23: what is written without the lock.  [arena_reset],
    [arena_destroy] and both [arena_init] do all their writes and allocator
    calls between [ARENA_LOCK()] and [ARENA_UNLOCK()].  [arena_alloc] and
    [arena_alloc_aligned] do so exactly when they accept their arguments
    (a non-null arena, a positive size, a positive power-of-two alignment);
    when they refuse them, the one write they make, to [arena->error] or to
    the global slot, happens before the lock is taken. *)
Theorem writes_outside_lock {A : Allocator}
  (g : option string) (arena : option arena_t) (size alignment : Z)
  (w : NoAlloc.world) :
  unprotected false (snd (arena_reset_traced g arena)) = []
  /\ unprotected false (snd (arena_destroy_traced g arena)) = []
  /\ unprotected false (snd (arena_init_traced g size)) = []
  /\ unprotected false (snd (static_arena_init_traced w)) = []
  /\ unprotected false (snd (arena_alloc_traced g arena size))
     = match arena with
       | None => [Ev_write_global]
       | Some _ => if size <=? 0 then [Ev_write_error] else []
       end
  /\ unprotected false
       (snd (arena_alloc_aligned_traced g arena size alignment))
     = match arena with
       | None => [Ev_write_global]
       | Some _ =>
           if (size <=? 0) || (alignment <=? 0)
              || negb (Z.land alignment (alignment - 1) =? 0)
           then [Ev_write_error] else []
       end.
Proof.
  repeat split.
  - destruct arena; reflexivity.
  - destruct arena; reflexivity.
  - unfold arena_init_traced.
    destruct (ARENA_MALLOC SIZEOF_ARENA_T);
      [destruct (ARENA_MALLOC (to_ulong size))|]; reflexivity.
  - unfold static_arena_init_traced. destruct (negb _); reflexivity.
  - unfold arena_alloc_traced.
    destruct arena; [destruct (size <=? 0); [|destruct (_ >? _)]|];
      reflexivity.
  - unfold arena_alloc_aligned_traced. cbv zeta.
    destruct arena; [|reflexivity].
    destruct (size <=? 0); [reflexivity|]. cbn [orb].
    destruct (_ || _); [reflexivity|]. destruct (_ >? _); reflexivity.
Qed.

End Hooks.

(** ** Instances of the further theorems *)

(** Four calls on an empty arena of 4096 bytes; the third is refused. *)
Lemma allocations_disjoint_witness :
  let a := {| data := 8192; capacity := 4096; pos := 0;
              error := Some "no error"%string |} in
  let ops := [Op_alloc 100; Op_alloc_aligned 16 64; Op_alloc 5000;
              Op_alloc 7] in
  Forall (fun r => data a + pos a <= fst r /\ 0 < snd r
                   /\ fst r + snd r <= data a + capacity a)
    (allocations (P := LP64) a ops)
  /\ ForallOrdPairs precedes (allocations (P := LP64) a ops).
Proof.
  apply (allocations_disjoint (P := LP64) LP64_ok).
  - in_range.
  - repeat constructor; in_range.
  - repeat constructor; discriminate.
  - in_range.
Defined.

(** An arena of 4096 bytes from [hosted_malloc] after two allocations. *)
Lemma reset_restores_constructed_witness :
  let a0 := {| data := 8192; capacity := 4096; pos := 0;
               error := Some "no error"%string |} in
  let ops := [Op_alloc 128; Op_alloc_aligned 16 64] in
  arena_reset (Some "null arena"%string)
    (Some (fold_left (apply_op (P := LP64)) ops a0))
  = (Some "null arena"%string, Some a0)
  /\ forall ops',
       allocations (P := LP64)
         (apply_op (P := LP64) (fold_left (apply_op (P := LP64)) ops a0)
            Op_reset) ops'
       = allocations (P := LP64) a0 ops'.
Proof.
  apply (reset_restores_constructed (P := LP64)).
  apply (constructed_dynamic hosted_malloc _arena_error_global_init 4096
           _arena_error_global_init).
  - in_range.
  - reflexivity.
Defined.

(** Capacity 100, cursor at 60, storage at 8192: the cursor's address is a
    multiple of 4. *)
Lemma arena_alloc_aligned_no_padding_witness :
  snd (arena_alloc_aligned (P := LP64) (Some "no error"%string)
         (Some scenario_arena) 8 4)
  = snd (arena_alloc (P := LP64) (Some "no error"%string)
           (Some scenario_arena) 8)
  /\ option_map pos
       (snd (fst (arena_alloc_aligned (P := LP64) (Some "no error"%string)
                    (Some scenario_arena) 8 4)))
     = option_map pos
         (snd (fst (arena_alloc (P := LP64) (Some "no error"%string)
                      (Some scenario_arena) 8)))
  /\ fst (fst (arena_alloc_aligned (P := LP64) (Some "no error"%string)
                 (Some scenario_arena) 8 4))
     = fst (fst (arena_alloc (P := LP64) (Some "no error"%string)
                   (Some scenario_arena) 8)).
Proof.
  apply (arena_alloc_aligned_no_padding (P := LP64) LP64_ok); in_range.
Defined.

(** [arena_init(4096)] with [hosted_malloc]. *)
Lemma arena_init_positive_size_witness :
  let a := {| data := 8192; capacity := 4096; pos := 0;
              error := Some "no error"%string |} in
  _arena_error_global_init = _arena_error_global_init
  /\ ARENA_MALLOC (Allocator := hosted_malloc) 4096 = Some (data a)
  /\ capacity a = 4096 /\ pos a = 0
  /\ error a = Some "no error"%string
  /\ arena_ok (P := LP64) a
  /\ capacity a <= ULONG_MAX (P := LP64) - INT_MAX (P := LP64).
Proof.
  exact (arena_init_positive_size (P := LP64) (A := hosted_malloc) LP64_ok
           _arena_error_global_init 4096 _arena_error_global_init
           (Some {| data := 8192; capacity := 4096; pos := 0;
                    error := Some "no error"%string |})
           ltac:(in_range) ltac:(lia) eq_refl).
Defined.

Lemma accessors_along_trace_witness :
  let a0 := {| data := 8192; capacity := 4096; pos := 0;
               error := Some "no error"%string |} in
  let ops := [Op_alloc 128; Op_alloc_aligned 16 64; Op_reset; Op_alloc 9] in
  arena_capacity (Some (fold_left (apply_op (P := LP64)) ops a0)) = 4096
  /\ 0 <= arena_used (Some (fold_left (apply_op (P := LP64)) ops a0)) <= 4096
  /\ arena_used NULL = 0 /\ arena_capacity NULL = 0.
Proof.
  apply (accessors_along_trace (P := LP64) (A := hosted_malloc) LP64_ok
           _arena_error_global_init 4096 _arena_error_global_init).
  - in_range.
  - lia.
  - reflexivity.
Defined.

(** The configuration of [examples/arena.c] after [arena_init()] and
    [static_calls]. *)
Lemma static_accessors_witness :
  arena_capacity
    (NoAlloc.deref
       (NoAlloc.run (P := LP64) (NoAlloc.world_init (P := LP64) (C := example_config))
          (NoAlloc.Call_init :: static_calls)) Arg_arena)
  = to_ulong (P := LP64) 1024
  /\ 0 <= arena_used
            (NoAlloc.deref
               (NoAlloc.run (P := LP64)
                  (NoAlloc.world_init (P := LP64) (C := example_config))
                  (NoAlloc.Call_init :: static_calls)) Arg_arena)
     <= to_ulong (P := LP64) 1024.
Proof.
  apply (static_accessors (P := LP64) (C := example_config) LP64_ok).
Defined.

(** Two [arena_init()] calls, the second of which fails, and a refused
    allocation. *)
Lemma static_init_failure_not_in_global_witness :
  arena_error
    (NoAlloc._arena_error_global
       (NoAlloc.run (P := LP64) (NoAlloc.world_init (P := LP64) (C := example_config))
          [NoAlloc.Call_init; NoAlloc.Call_init;
           NoAlloc.Call_alloc Arg_arena 2000])) NULL
  = Some "no error"%string.
Proof.
  apply (static_init_failure_not_in_global (P := LP64) (C := example_config)).
  repeat constructor.
Defined.

(** After [arena_init(4096)] and [arena_alloc(NULL, 8)] the global slot
    holds "null arena"; [arena_destroy(a)] clears it. *)
Lemma only_destroy_clears_global_witness :
  exists a,
    Dynamic.Call_destroy Arg_arena = Dynamic.Call_destroy Arg_arena
    /\ Dynamic.client_arena
         (Dynamic.run (P := LP64) (A := hosted_malloc) Dynamic.world_init
            [Dynamic.Call_init 4096; Dynamic.Call_alloc Arg_null 8])
       = Some a.
Proof.
  apply (only_destroy_clears_global (P := LP64) (A := hosted_malloc)).
  - discriminate.
  - reflexivity.
Defined.

Lemma example_main_runs_witness :
  exists w,
    Example.main (P := LP64)
      (NoAlloc.world_init (P := LP64) (C := Example.config 8192))
    = (w, 0, Example.Allocated_128_bytes_at 8192)
    /\ arena_used (Some (NoAlloc._arena_static w)) = 128
    /\ arena_capacity (Some (NoAlloc._arena_static w)) = 1024
    /\ NoAlloc._arena_static_used w = 1
    /\ arena_error (NoAlloc._arena_error_global w)
         (Some (NoAlloc._arena_static w)) = Some "no error"%string.
Proof.
  apply (example_main_runs (P := LP64) LP64_ok 8192).
Defined.

(** [main] entered once more after it has run. *)
Lemma example_main_init_error_witness :
  let w := fst (fst (Example.main (P := LP64)
                       (NoAlloc.world_init (P := LP64)
                          (C := Example.config 8192)))) in
  Example.main (P := LP64) w
  = (fst (NoAlloc.arena_init w), 1,
     Example.Arena_init_error (NoAlloc._arena_error_global w))
  /\ error (NoAlloc._arena_static (fst (NoAlloc.arena_init w)))
     = Some "static arena already used"%string.
Proof.
  apply (example_main_init_error (P := LP64)).
  discriminate.
Defined.

(** ** Platforms whose [unsigned long] is wider than [int] *)

Section WideUnsignedLong.
Context {P : Platform} {A : Allocator}.
Hypothesis P_ok : platform_ok.

Lemma wide_room : INT_BITS < ULONG_BITS -> 3 * INT_MAX + 1 <= ULONG_MAX.
Proof.
  intros Hwide. unfold INT_MAX, ULONG_MAX. destruct P_ok as (? & _ & _).
  assert (2 ^ (INT_BITS + 1) <= 2 ^ ULONG_BITS)
    by (apply Z.pow_le_mono_r; lia).
  replace (INT_BITS + 1) with (2 + (INT_BITS - 1)) in * by lia.
  rewrite Z.pow_add_r in * by lia. change (2 ^ 2) with 4 in *.
  pose proof (Z.pow_pos_nonneg 2 (INT_BITS - 1)). lia.
Qed.

(** X24: on a platform whose [unsigned long] is wider than its [int]
    (LP64 for one), for an arena from [arena_init(size)] with a positive
    size, in whatever state earlier calls have left it: the addresses that
    a sequence of allocation calls with no reset in between returns are
    ranges inside the [size] bytes of the storage, any two of them
    disjoint, and the cursor does not move back. *)
Theorem wide_ulong_allocations_safe
  (g : option string) (size : Z) (g' : option string) (a0 : arena_t)
  (pre ops : list op) :
  INT_BITS < ULONG_BITS -> is_int size -> 0 < size ->
  Dynamic.arena_init g size = (g', Some a0) ->
  Forall op_args_ok ops -> Forall (fun o => o <> Op_reset) ops ->
  Forall (fun r => data a0 <= fst r /\ 0 < snd r
                   /\ fst r + snd r <= data a0 + size)
    (allocations (fold_left apply_op pre a0) ops)
  /\ ForallOrdPairs precedes (allocations (fold_left apply_op pre a0) ops)
  /\ pos (fold_left apply_op pre a0)
     <= pos (fold_left apply_op ops (fold_left apply_op pre a0)).
Proof.
  intros Hwide Hint Hsize Hinit Hargs Hops.
  pose proof (wide_room Hwide) as Hroom.
  assert (Hcons : constructed a0)
    by (eapply constructed_dynamic; eassumption).
  assert (Hcap0 : capacity a0 = size).
  { unfold Dynamic.arena_init in Hinit.
    destruct (ARENA_MALLOC SIZEOF_ARENA_T); [|discriminate].
    destruct (ARENA_MALLOC (to_ulong size)); [|discriminate].
    injection Hinit as _ <-. cbn. apply (to_ulong_int P_ok); [assumption|lia]. }
  set (a := fold_left apply_op pre a0).
  assert (Hok : forall l s, arena_ok s -> arena_ok (fold_left apply_op l s)).
  { intros l s Hs. apply fold_left_invariant; [|assumption].
    intros s' c Hs'. apply (apply_op_frame P_ok), Hs'. }
  assert (Ha : arena_ok a) by (apply Hok, (constructed_ok P_ok), Hcons).
  destruct (run_storage pre a0) as [Hd Hc]. fold a in Hd, Hc.
  destruct (run_storage ops a) as [_ Hc'].
  assert (Hlaid : laid_out (data a + pos a) (allocations a ops)
                    (data a + pos (fold_left apply_op ops a))).
  { apply (allocations_laid_out P_ok); try assumption.
    destruct Hint. lia. }
  destruct (laid_out_bounds _ _ _ Hlaid) as [Hle Hall].
  destruct (Hok ops a Ha) as (_ & Hend & _).
  destruct Ha as (Hp0 & _ & _).
  split; [|split].
  - eapply Forall_impl; [|exact Hall]. cbn. intros r ?. lia.
  - eapply laid_out_ordered, Hlaid.
  - lia.
Qed.

End WideUnsignedLong.

(** [arena_init(4096)] with [hosted_malloc] on LP64; two calls, then three
    allocation calls. *)
Lemma wide_ulong_allocations_safe_witness :
  let a0 := {| data := 8192; capacity := 4096; pos := 0;
               error := Some "no error"%string |} in
  let pre := [Op_alloc 128; Op_reset] in
  let ops := [Op_alloc 100; Op_alloc_aligned 16 64; Op_alloc 4000] in
  Forall (fun r => data a0 <= fst r /\ 0 < snd r
                   /\ fst r + snd r <= data a0 + 4096)
    (allocations (P := LP64) (fold_left (apply_op (P := LP64)) pre a0) ops)
  /\ ForallOrdPairs precedes
       (allocations (P := LP64) (fold_left (apply_op (P := LP64)) pre a0) ops)
  /\ pos (fold_left (apply_op (P := LP64)) pre a0)
     <= pos (fold_left (apply_op (P := LP64)) ops
               (fold_left (apply_op (P := LP64)) pre a0)).
Proof.
  apply (wide_ulong_allocations_safe (P := LP64) (A := hosted_malloc) LP64_ok
           _arena_error_global_init 4096 _arena_error_global_init).
  - cbn. lia.
  - in_range.
  - lia.
  - reflexivity.
  - repeat constructor; in_range.
  - repeat constructor; discriminate.
Defined.

(** ** Null results as pointers of the address space *)

Section NullResults.
Context {P : Platform}.
Hypothesis P_ok : platform_ok.

(** After either allocation function, [arena_error] for the same pointer
    returns "no error" exactly when the function took its success path. *)
Lemma error_reflects_path
  (g : option string) (arena : option arena_t) (n al : Z) :
  (arena_error (fst (fst (arena_alloc g arena n)))
     (snd (fst (arena_alloc g arena n))) = Some "no error"%string
   <-> snd (arena_alloc g arena n) <> None)
  /\ (arena_error (fst (fst (arena_alloc_aligned g arena n al)))
        (snd (fst (arena_alloc_aligned g arena n al))) = Some "no error"%string
      <-> snd (arena_alloc_aligned g arena n al) <> None).
Proof.
  unfold arena_alloc, arena_alloc_aligned. cbv zeta. split.
  - destruct arena as [a|]; [destruct (n <=? 0); [|destruct (_ >? _)]|];
      cbn; split; intros H; try discriminate; try reflexivity;
      exfalso; apply H; reflexivity.
  - destruct arena as [a|];
      [destruct (n <=? 0); [|destruct (_ || _); [|destruct (_ >? _)]]|];
      cbn; split; intros H; try discriminate; try reflexivity;
      exfalso; apply H; reflexivity.
Qed.

(** Where no sum can wrap, an address that [arena_alloc] returns lies in
    the storage. *)
Lemma alloc_served_in_storage g a n p :
  arena_ok a -> is_int n -> capacity a + 2 * INT_MAX <= ULONG_MAX ->
  snd (arena_alloc g (Some a) n) = Some p ->
  data a <= p < data a + capacity a.
Proof.
  intros Hok Hn Hroom.
  pose proof (INT_MAX_pos P_ok) as Hmax.
  destruct (Z_le_gt_dec n 0) as [Hn0|Hn0].
  - unfold arena_alloc. destruct (Z.leb_spec n 0); [discriminate|lia].
  - assert (Hrep : pos a + n <= ULONG_MAX)
      by (destruct Hok as (? & ? & ?), Hn; lia).
    rewrite (arena_alloc_no_wrap P_ok) by (assumption || lia).
    destruct (Z.gtb_spec (pos a + n) (capacity a)); cbn; [discriminate|].
    intros [= <-]. destruct Hok as (? & ? & ?). lia.
Qed.

(** Where no sum can wrap, an address that [arena_alloc_aligned] returns
    lies in the storage. *)
Lemma aligned_served_in_storage g a n al p :
  arena_ok a -> is_int n -> is_int al ->
  capacity a + 2 * INT_MAX <= ULONG_MAX ->
  snd (arena_alloc_aligned g (Some a) n al) = Some p ->
  data a <= p < data a + capacity a.
Proof.
  intros (Hp0 & Hpc & Hc) Hn Hal Hroom Hres.
  pose proof (INT_MAX_pos P_ok) as Hmax.
  destruct (arena_alloc_aligned g (Some a) n al) as [[g' a'] r] eqn:Hcall.
  cbn in Hres. subst r.
  destruct (arena_alloc_aligned_served _ _ _ _ _ _ _ Hcall)
    as (Hn0 & Hal0 & Hland).
  rewrite (arena_alloc_aligned_checked P_ok) in Hcall by assumption.
  cbv zeta in Hcall.
  pose proof (Z.mod_pos_bound (al - (data a + pos a) mod al) al Hal0) as Hpad.
  destruct Hn, Hal.
  rewrite (to_ulong_id (pos a + _)) in Hcall by lia.
  rewrite (to_ulong_id (pos a + _ + n)) in Hcall by lia.
  destruct (Z.gtb_spec (pos a + (al - (data a + pos a) mod al) mod al + n)
              (capacity a)); [discriminate|].
  injection Hcall as _ _ <-. lia.
Qed.

(** An address in the storage is its own pointer value, and not null. *)
Lemma storage_pointer_nonnull ptr_bits a p :
  storage_ok ptr_bits a -> data a <= p < data a + capacity a ->
  c_pointer ptr_bits (Some p) <> 0.
Proof.
  intros [Hd Hend] Hp. cbn. rewrite Z.mod_small by lia. lia.
Qed.

(** X8: for an arena whose storage lies in the address space and whose
    capacity leaves room for the largest padding and size
    ([capacity + 2 * INT_MAX <= ULONG_MAX]), whenever
    [arena_alloc_aligned] returns the null pointer, the call was refused
    and the cursor, the capacity and the storage address are as they
    were. *)
Theorem arena_alloc_aligned_failure_frame ptr_bits g a n al :
  arena_ok a -> storage_ok ptr_bits a ->
  capacity a + 2 * INT_MAX <= ULONG_MAX ->
  is_int n -> is_int al ->
  c_pointer ptr_bits (snd (arena_alloc_aligned g (Some a) n al)) = 0 ->
  exists a',
    snd (fst (arena_alloc_aligned g (Some a) n al)) = Some a'
    /\ pos a' = pos a /\ capacity a' = capacity a /\ data a' = data a
    /\ error a' <> Some "no error"%string.
Proof.
  intros Hok Hst Hroom Hn Hal Hnull.
  pose proof (aligned_served_in_storage g a n al) as Hin.
  pose proof (proj2 (error_reflects_path g (Some a) n al)) as Herr.
  destruct (arena_alloc_aligned g (Some a) n al) as [[g' a'] r] eqn:Hcall.
  cbn in *. destruct r as [p|].
  - exfalso. apply (storage_pointer_nonnull ptr_bits a p Hst); [|exact Hnull].
    apply Hin; auto.
  - destruct a' as [a'|].
    + exists a'. split; [reflexivity|].
      destruct (arena_alloc_aligned_refusal_frame _ _ _ _ _ _ Hcall)
        as (? & ? & ?).
      repeat split; try assumption.
      intros He. cbn in Herr. rewrite He in Herr.
      apply (proj1 Herr); reflexivity.
    + unfold arena_alloc_aligned in Hcall. cbv zeta in Hcall.
      destruct (n <=? 0); [|destruct (_ || _); [|destruct (_ >? _)]];
        discriminate.
Qed.

(** X13: for [NULL], and for an arena whose storage lies in the address
    space and whose capacity leaves room for the largest padding and size
    ([capacity + 2 * INT_MAX <= ULONG_MAX]): after [arena_alloc] or
    [arena_alloc_aligned] with [int] arguments, [arena_error] for the same
    pointer returns "no error" exactly when the call returned a pointer
    that is not null. *)
Theorem error_reflects_result ptr_bits
  (g : option string) (arena : option arena_t) (n al : Z) :
  (forall a, arena = Some a ->
     arena_ok a /\ storage_ok ptr_bits a
     /\ capacity a + 2 * INT_MAX <= ULONG_MAX) ->
  is_int n -> is_int al ->
  (arena_error (fst (fst (arena_alloc g arena n)))
     (snd (fst (arena_alloc g arena n))) = Some "no error"%string
   <-> c_pointer ptr_bits (snd (arena_alloc g arena n)) <> 0)
  /\ (arena_error (fst (fst (arena_alloc_aligned g arena n al)))
        (snd (fst (arena_alloc_aligned g arena n al))) = Some "no error"%string
      <-> c_pointer ptr_bits (snd (arena_alloc_aligned g arena n al)) <> 0).
Proof.
  intros Harena Hn Hal.
  destruct (error_reflects_path g arena n al) as [Halloc Haligned].
  assert (Hnull : forall r : ptr,
            (forall p, r = Some p ->
               exists a, arena = Some a /\ data a <= p < data a + capacity a) ->
            (r <> None <-> c_pointer ptr_bits r <> 0)).
  { intros [p|] Hr.
    - destruct (Hr p eq_refl) as (a & Ha & Hp).
      destruct (Harena a Ha) as (_ & Hst & _).
      split; [intros _ | discriminate].
      apply (storage_pointer_nonnull ptr_bits a p Hst Hp).
    - cbn. split; intros H; exfalso; apply H; reflexivity. }
  split.
  - rewrite Halloc. apply Hnull. intros p Hp.
    destruct arena as [a|]; [|discriminate].
    destruct (Harena a eq_refl) as (Hok & _ & Hroom).
    exists a. split; [reflexivity|].
    apply (alloc_served_in_storage g a n p); assumption.
  - rewrite Haligned. apply Hnull. intros p Hp.
    destruct arena as [a|]; [|discriminate].
    destruct (Harena a eq_refl) as (Hok & _ & Hroom).
    exists a. split; [reflexivity|].
    apply (aligned_served_in_storage g a n al p); assumption.
Qed.

End NullResults.

(** Outside these hypotheses a served call can return the null pointer.
    On [high_arena32], with 32-bit [int], [unsigned long] and pointers,
    [arena_alloc_aligned(a, INT_MAX, 512)] pads by 257, the sum
    [new_pos + size] wraps to 255 and passes the comparison, and the address
    [data + new_pos] is [2 ^ 32]: the call returns the null pointer with
    the cursor moved to 255 and "no error" recorded. *)
Lemma alloc_aligned_null_pointer_after_wrap :
  arena_alloc_aligned (P := ILP32) (Some "no error"%string)
    (Some high_arena32) 2147483647 512
  = (Some "no error"%string,
     Some {| data := 2147483392; capacity := 2147483647; pos := 255;
             error := Some "no error"%string |},
     Some 4294967296)
  /\ c_pointer 32 (Some 4294967296) = 0.
Proof.
  split.
  - vm_compute. reflexivity.
  - reflexivity.
Qed.

(** Capacity 16, cursor at 1, 64-bit pointers: an aligned request for 16
    bytes returns the null pointer and the cursor stays at 1. *)
Lemma arena_alloc_aligned_failure_frame_witness :
  exists a',
    snd (fst (arena_alloc_aligned (P := LP64) (Some "no error"%string)
                (Some unaligned_arena) 16 8)) = Some a'
    /\ pos a' = pos unaligned_arena
    /\ capacity a' = capacity unaligned_arena
    /\ data a' = data unaligned_arena
    /\ error a' <> Some "no error"%string.
Proof.
  apply (arena_alloc_aligned_failure_frame (P := LP64) LP64_ok 64).
  - in_range.
  - unfold storage_ok. cbn. lia.
  - in_range.
  - in_range.
  - in_range.
  - reflexivity.
Defined.

(** Capacity 100, cursor at 60, 64-bit pointers: a request for 8 bytes and
    an aligned one. *)
Lemma error_reflects_result_witness :
  (arena_error
     (fst (fst (arena_alloc (P := LP64) (Some "no error"%string)
                  (Some scenario_arena) 8)))
     (snd (fst (arena_alloc (P := LP64) (Some "no error"%string)
                  (Some scenario_arena) 8))) = Some "no error"%string
   <-> c_pointer 64
         (snd (arena_alloc (P := LP64) (Some "no error"%string)
                 (Some scenario_arena) 8)) <> 0)
  /\ (arena_error
        (fst (fst (arena_alloc_aligned (P := LP64) (Some "no error"%string)
                     (Some scenario_arena) 8 64)))
        (snd (fst (arena_alloc_aligned (P := LP64) (Some "no error"%string)
                     (Some scenario_arena) 8 64))) = Some "no error"%string
      <-> c_pointer 64
            (snd (arena_alloc_aligned (P := LP64) (Some "no error"%string)
                    (Some scenario_arena) 8 64)) <> 0).
Proof.
  apply (error_reflects_result (P := LP64) LP64_ok 64).
  - intros a [= <-]. split; [in_range|]. split; [|in_range].
    unfold storage_ok. cbn. lia.
  - in_range.
  - in_range.
Defined.
